(** * Stabilised behavioural-risk scoring of AIWellbeing

    A shallow embedding of the online scoring core:
    - [src/backend/services/stress_behavior_service.py]: feature extraction,
      the activity-aware EMA + hysteresis [TemporalSmoother], the per-user
      [PlattCalibrator], [BehaviorPredictor.predict], [predict_from_row] and
      [train_user_calibrator];
    - [src/ML/streamlit_app.py]: [OnlineStats], [clipped_mean] and
      [RiskEngine.update_and_score].

    Python floats are modelled by exact rationals [Q] (and, where square roots
    or exponentials are involved, by reals [R]). *)

From Stdlib Require Import QArith Qminmax Lqa ZArith List String Ascii Bool.
From Stdlib Require Import Reals Qreals Lra DecimalString.
From stdpp Require Import base gmap strings.
From Stdlib Require Import Sorted Permutation.

Import ListNotations.

(** Arithmetic over [Q] ([lra] and [nra] below refer to the real-number ones). *)
Ltac qlra := Lqa.lra.
Ltac qnra := Lqa.nra.

(* ------------------------------------------------------------------ *)
(** ** TemporalSmoother (stress_behavior_service.py, lines 58-114) *)

Module Smoother.

Local Open Scope Q_scope.

(** The Python object: its constructor parameters and its mutable state
    [_ema] (None until the first call), [_state] (0 = calm, 1 = stressed) and
    [_idle_count]. *)
Record TemporalSmoother := mkSmoother {
  alpha_active : Q;
  alpha_idle : Q;
  on_t : Q;
  off_t : Q;
  idle_reset_k : Z;
  baseline : Q;
  _ema : option Q;
  _state : Z;
  _idle_count : Z
}.

(** [TemporalSmoother.__init__]. *)
Definition new_smoother (aa ai on off : Q) (k : Z) (b : Q) : TemporalSmoother :=
  mkSmoother aa ai on off k b None 0 0.

(** The reference parameters (the defaults of [__init__]). *)
Definition default_smoother : TemporalSmoother :=
  new_smoother 0.35 0.85 0.60 0.40 2 0.20.

Definition set_dyn (s : TemporalSmoother) (e : option Q) (st ic : Z) : TemporalSmoother :=
  mkSmoother (alpha_active s) (alpha_idle s) (on_t s) (off_t s)
             (idle_reset_k s) (baseline s) e st ic.

(** [TemporalSmoother.step]: returns [(float(self._ema), int(self._state))]
    together with the updated object. *)
Definition step (s : TemporalSmoother) (p : Q) (is_idle : bool)
    : (Q * Z) * TemporalSmoother :=
  (* choose alpha based on activity *)
  let a := if is_idle then alpha_idle s else alpha_active s in
  let ema1 := match _ema s with
              | None => p
              | Some e => a * p + (1 - a) * e
              end in
  (* if idle repeatedly, snap back toward baseline quickly *)
  let '(ema2, st2, ic2) :=
    if is_idle then
      let ic := (_idle_count s + 1)%Z in
      if (idle_reset_k s <=? ic)%Z then (baseline s, 0%Z, ic)
      else (ema1, _state s, ic)
    else (ema1, _state s, 0%Z) in
  (* hysteresis on the EMA *)
  let st3 :=
    if (st2 =? 0)%Z && Qle_bool (on_t s) ema2 then 1%Z
    else if (st2 =? 1)%Z && Qle_bool ema2 (off_t s) then 0%Z
    else st2 in
  ((ema2, st3), set_dyn s (Some ema2) st3 ic2).

(** [TemporalSmoother.force_off]. *)
Definition force_off (s : TemporalSmoother) : TemporalSmoother :=
  set_dyn s (_ema s) 0 (_idle_count s).

(** A sequence of [step] calls; the outputs in call order. *)
Fixpoint run (s : TemporalSmoother) (inputs : list (Q * bool))
    : list (Q * Z) * TemporalSmoother :=
  match inputs with
  | [] => ([], s)
  | (p, idle) :: rest =>
      let '(o, s1) := step s p idle in
      let '(os, s2) := run s1 rest in
      (o :: os, s2)
  end.

(** States reachable from a freshly constructed smoother through [step]. *)
Inductive reachable (aa ai on off : Q) (k : Z) (b : Q) : TemporalSmoother -> Prop :=
| reach_new : reachable aa ai on off k b (new_smoother aa ai on off k b)
| reach_step s p idle :
    reachable aa ai on off k b s ->
    reachable aa ai on off k b (snd (step s p idle)).

(** A state whose decision agrees with its EMA: calm with the EMA unset or
    below [on_t], or stressed with the EMA above [off_t]. *)
Definition consistent (s : TemporalSmoother) : Prop :=
  (_state s = 0%Z /\ match _ema s with None => True | Some e => e < on_t s end) \/
  (_state s = 1%Z /\ match _ema s with None => False | Some e => off_t s < e end).

End Smoother.

(* ------------------------------------------------------------------ *)
(** ** Python values held in a feature record *)

Module Py.

Local Open Scope Q_scope.

(** The values a JSON feature record can hold at a feature name. *)
Inductive pyval :=
| PNone
| PBool (b : bool)
| PInt (z : Z)
| PFloat (q : Q)
| PStr (s : string).

(** A Python dict from names to values. *)
Abbreviation record := (gmap string pyval).

(** Python truthiness, as used by [x or 0.0]. *)
Definition truthy (v : pyval) : bool :=
  match v with
  | PNone => false
  | PBool b => b
  | PInt z => negb (z =? 0)%Z
  | PFloat q => negb (Qeq_bool q 0)
  | PStr s => negb (String.eqb s "")
  end.

(** [x or y]. *)
Definition py_or (x y : pyval) : pyval := if truthy x then x else y.

(** [d.get(k, default)]. *)
Definition get (d : record) (k : string) (default : pyval) : pyval :=
  match d !! k with Some v => v | None => default end.

Definition digit_of (c : ascii) : option Z :=
  let n := nat_of_ascii c in
  if (48 <=? n)%nat && (n <=? 57)%nat then Some (Z.of_nat (n - 48)) else None.

(** Digits of a decimal literal: value and number of digits read. *)
Fixpoint parse_digits (s : string) (acc : Z) (len : nat) : option (Z * nat * string) :=
  match s with
  | EmptyString => Some (acc, len, EmptyString)
  | String c rest =>
      match digit_of c with
      | Some d => parse_digits rest (10 * acc + d)%Z (S len)
      | None => Some (acc, len, s)
      end
  end.

(** [float(s)] on a string, for the decimal literals
    [[+|-] digits [. digits]] (at least one digit); any other string makes
    this model raise, as Python does for e.g. ["abc"] or [""]. Python's extra
    spellings (exponents, underscores, surrounding blanks, ["inf"], ["nan"])
    are outside the model. *)
Definition float_of_string (s : string) : option Q :=
  let '(sign, body) :=
    match s with
    | String "-"%char rest => ((-1)%Z, rest)
    | String "+"%char rest => (1%Z, rest)
    | _ => (1%Z, s)
    end in
  match parse_digits body 0 0 with
  | Some (ip, il, EmptyString) =>
      if (il =? 0)%nat then None else Some (inject_Z (sign * ip))
  | Some (ip, il, String "."%char frac) =>
      match parse_digits frac 0 0 with
      | Some (fp, fl, EmptyString) =>
          if (il + fl =? 0)%nat then None
          else Some (inject_Z sign *
                     (inject_Z ip + inject_Z fp / inject_Z (10 ^ Z.of_nat fl)))
      | _ => None
      end
  | _ => None
  end.

(** Python's [float(v)]; [None] stands for the raised exception
    ([TypeError] on [None], [ValueError] on a non-numeric string). *)
Definition py_float (v : pyval) : option Q :=
  match v with
  | PNone => None
  | PBool b => Some (if b then 1 else 0)
  | PInt z => Some (inject_Z z)
  | PFloat q => Some q
  | PStr s => float_of_string s
  end.

(** [float(row.get(name, 0.0) or 0.0)]. *)
Definition get_float0 (row : record) (name : string) : option Q :=
  py_float (py_or (get row name (PFloat 0)) (PFloat 0)).

(** Python [min(a, b)]: [b] only when [b < a]. *)
Definition py_min (a b : Q) : Q := if negb (Qle_bool a b) then b else a.

(** Sequencing of the option (exception) monad. *)
Definition obind {A B} (m : option A) (f : A -> option B) : option B :=
  match m with Some a => f a | None => None end.

Fixpoint omap {A B} (f : A -> option B) (l : list A) : option (list B) :=
  match l with
  | [] => Some []
  | x :: xs => obind (f x) (fun y => obind (omap f xs) (fun ys => Some (y :: ys)))
  end.

End Py.

Import Py.

(* ------------------------------------------------------------------ *)
(** ** Feature extraction and the idle heuristic (lines 49-51, 158-169) *)

Module Features.

Local Open Scope Q_scope.

(** [_extract_features(row, feature_names)]: the [[1, D]] array, as its one
    row; [None] when some [float(...)] raises. The entries are kept exact:
    the rounding of [dtype=np.float32] is not modelled. *)
Definition _extract_features (row : record) (feature_names : list string)
    : option (list Q) :=
  omap (get_float0 row) feature_names.

(** [_nz_count]. *)
Definition _nz_count (v : list Q) : nat :=
  length (List.filter (fun q => negb (Qeq_bool q 0)) v).

Definition activity_keys : list string :=
  ["ks_event_count"; "ks_keydowns"; "ks_keyups"; "mouse_move_count";
   "mouse_click_count"; "mouse_scroll_count"; "active_seconds_fraction"]%string.

(** [_is_idle(row, eps=1e-6)]: all seven [float(...)] are evaluated first
    (each may raise), then the conjunction. *)
Definition _is_idle (row : record) : option bool :=
  let eps := 1 # 1000000 in
  obind (get_float0 row "ks_event_count") (fun ks_events =>
  obind (get_float0 row "ks_keydowns") (fun kd =>
  obind (get_float0 row "ks_keyups") (fun ku =>
  obind (get_float0 row "mouse_move_count") (fun mm =>
  obind (get_float0 row "mouse_click_count") (fun mc =>
  obind (get_float0 row "mouse_scroll_count") (fun ms =>
  obind (get_float0 row "active_seconds_fraction") (fun act =>
  Some (Qle_bool ks_events eps && Qle_bool kd eps && Qle_bool ku eps &&
        Qle_bool mm eps && Qle_bool mc eps && Qle_bool ms eps &&
        Qle_bool act 0.02))))))))%string.

End Features.

(* ------------------------------------------------------------------ *)
(** ** Calibrator, predictor and the public entry point
       (stress_behavior_service.py, lines 117-332) *)

Module Predictor.

Import Smoother Features.
Local Open Scope Q_scope.

(** [PlattCalibrator]: [coef_] and [intercept_], each possibly [None]. *)
Record PlattCalibrator := mkCal { coef_ : option Q; intercept_ : option Q }.

Definition unfit_calibrator : PlattCalibrator := mkCal None None.

(** [PlattCalibrator.is_fit]. *)
Definition is_fit (c : PlattCalibrator) : bool :=
  match coef_ c, intercept_ c with Some _, Some _ => true | _, _ => false end.

(** The calibrator files [artifacts/calibrators/cal_<user>.json], by user. *)
Abbreviation cal_store := (gmap string PlattCalibrator).

(** [load_user_calibrator]: [PlattCalibrator.from_file] gives an unfit
    calibrator when the file is missing. *)
Definition load_user_calibrator (store : cal_store) (user_id : string) : PlattCalibrator :=
  match store !! user_id with Some c => c | None => unfit_calibrator end.

(** The per-user smoother registry [_SMOOTHERS]. *)
Abbreviation registry := (gmap string TemporalSmoother).

(** [BehaviorPredictor] as configured by [__init__] from the meta JSON. *)
Record BehaviorPredictor := mkPredictor {
  feature_names : list string;
  default_thresh : Q;
  alpha : Q;
  on_delta : Q;
  off_delta : Q;
  idle_clamp : Q
}.

(** [BehaviorPredictor.__init__] after the artifacts are loaded: [None] when
    [feature_names] is missing or empty ([ValueError]). *)
Definition new_predictor (meta_feature_names : list string)
    (best_thresh idle_clamp_prob : option Q) : option BehaviorPredictor :=
  match meta_feature_names with
  | [] => None
  | _ => Some (mkPredictor meta_feature_names
                 (match best_thresh with Some t => t | None => 0.5 end)
                 0.35 0.10 0.10
                 (match idle_clamp_prob with Some c => c | None => 0.10 end))
  end.

(** The dict returned by [predict]. *)
Record PredictOutput := mkOutput {
  raw_prob : Q;
  calibrated_prob : Q;
  smoothed_prob : Q;
  is_stressed : bool;
  threshold_used : Q;
  has_calibrator : bool
}.

(** The dict returned by [predict_from_row]. *)
Record RowOutput := mkRowOutput {
  out_user_id : string;
  out : PredictOutput;
  feature_count : nat;
  nonzero_features : nat;
  activity : list Q
}.

Section Predict.

(** [self.scaler.transform] followed by [_head_prob]: the external model. *)
Variable head_prob : list Q -> Q.
(** The fitted logistic map [1/(1+exp(-(coef*score+intercept)))]. *)
Variable platt : Q -> Q -> Q -> Q.
(** Python's [repr] of a float, used by [str(...)]. *)
Variable float_repr : Q -> string.

(** Python's [str(v)]. *)
Definition py_str (v : pyval) : string :=
  match v with
  | PNone => "None"
  | PBool true => "True"
  | PBool false => "False"
  | PInt z => DecimalString.NilZero.string_of_int (Z.to_int z)
  | PFloat q => float_repr q
  | PStr s => s
  end.

(** [PlattCalibrator.predict_proba] on one score; [None] is the [TypeError]
    raised by [None * scores] on an unfit calibrator. *)
Definition predict_proba (c : PlattCalibrator) (score : Q) : option Q :=
  match coef_ c, intercept_ c with
  | Some a, Some b => Some (platt a b score)
  | _, _ => None
  end.

(** The smoother [predict] and [predict_from_row] build for a new user. *)
Definition predictor_smoother (P : BehaviorPredictor) : TemporalSmoother :=
  new_smoother (alpha P) 0.85 (default_thresh P + on_delta P)
               (default_thresh P - off_delta P) 2 0.20.

(** [BehaviorPredictor.predict(row, smoother)]: the output and the smoother
    object after the call; [None] when an exception is raised. *)
Definition predict (P : BehaviorPredictor) (store : cal_store) (row : record)
    (smoother : option TemporalSmoother) : option (PredictOutput * TemporalSmoother) :=
  obind (_extract_features row (feature_names P)) (fun x =>
  let raw := head_prob x in
  (* Optional per-user calibration *)
  let user_id := py_str (get row "user_id" (PStr "harsh")) in
  let cal := load_user_calibrator store user_id in
  obind (if is_fit cal
         then obind (predict_proba cal raw) (fun q => Some (q, true))
         else Some (raw, false)) (fun '(cal_prob0, has_cal) =>
  (* Idle guard *)
  obind (_is_idle row) (fun idle =>
  let cal_prob := if idle then py_min cal_prob0 (idle_clamp P) else cal_prob0 in
  let sm := match smoother with Some s => s | None => predictor_smoother P end in
  let '((smoothed, is_on0), sm1) := step sm cal_prob idle in
  let '(sm2, is_on) := if idle then (force_off sm1, 0%Z) else (sm1, is_on0) in
  Some (mkOutput raw cal_prob smoothed (negb (is_on =? 0)%Z)
                 (default_thresh P) has_cal, sm2))))%string.

(** [str(user_id or row.get("user_id") or "harsh")]. *)
Definition entity_id (user_id : option string) (row : record) : string :=
  let v := match user_id with Some s => PStr s | None => PNone end in
  py_str (py_or (py_or v (get row "user_id" PNone)) (PStr "harsh")).

(** [predict_from_row(row, user_id)]: the result ([None] when an exception
    is raised) and the smoother registry afterwards. The smoother object is
    shared with the registry, so the state [predict] leaves it in is the
    registry's entry for [uid]. *)
Definition predict_from_row (P : BehaviorPredictor) (reg : registry)
    (store : cal_store) (row : record) (user_id : option string)
    : option RowOutput * registry :=
  let uid := entity_id user_id row in
  let sm := match reg !! uid with Some s => s | None => predictor_smoother P end in
  let reg1 := <[uid := sm]> reg in
  match _extract_features row (feature_names P) with
  | None => (None, reg1)
  | Some x =>
      match predict P store (<["user_id" := PStr uid]> row) (Some sm) with
      | None => (None, reg1)
      | Some (o, sm') =>
          let reg2 := <[uid := sm']> reg in
          (obind (omap (get_float0 row) activity_keys) (fun act =>
             Some (mkRowOutput uid o (length (feature_names P)) (_nz_count x) act)),
           reg2)
      end
  end%string.

End Predict.

(** The fallback the specification states for an unfit calibrator,
    [1/(1+e^-raw_score)], over the reals. *)
Definition spec_sigmoid_fallback (x : R) : R := (1 / (1 + exp (- x)))%R.

End Predictor.

(* ------------------------------------------------------------------ *)
(** ** Calibrator training (stress_behavior_service.py, lines 374-415) *)

Module Training.

Import Predictor.
Local Open Scope Q_scope.

(** One row of [labels/stress_30s.csv]; [None] is a NaN cell. The user column
    is held as its [astype(str)] rendering. *)
Record LabelRow := mkLabelRow {
  lr_user_id : string;
  lr_confident : option Q;
  lr_coverage : option Q;
  lr_stress_prob : option Q
}.

(** The data frame: which optional columns it has, and its rows. *)
Record LabelTable := mkLabelTable {
  has_user_id : bool;
  has_confident : bool;
  has_coverage : bool;
  has_stress_prob : bool;
  rows : list LabelRow
}.

(** The exceptions [train_user_calibrator] can raise. *)
Inductive TrainError :=
| FileNotFoundError                          (* CSV not found *)
| KeyErrorStressProb                         (* dropna(subset=["stress_prob"]) *)
| InsufficientRows (min_rows : Z) (found : nat) (* the ValueError of line 395 *)
| FitError.                                  (* feature/head/fit failures *)

(** The filters of lines 389-393, in order. *)
Definition qualifying (cov_min : Q) (user_id : string) (t : LabelTable) : list LabelRow :=
  let r1 := if has_user_id t
            then List.filter (fun r => String.eqb (lr_user_id r) user_id) (rows t)
            else rows t in
  let r2 := if has_confident t && has_coverage t
            then List.filter (fun r =>
                   match lr_confident r, lr_coverage r with
                   | Some c, Some v => Qeq_bool c 1 && Qle_bool cov_min v
                   | _, _ => false
                   end) r1
            else r1 in
  List.filter (fun r => match lr_stress_prob r with Some _ => true | None => false end) r2.

Section Train.

(** Building the features, scoring them with the head and
    [PlattCalibrator.fit]: [None] when that raises. *)
Variable fit_calibrator : list LabelRow -> option PlattCalibrator.

(** [str(CAL_DIR)]: [PROJECT_ROOT / "artifacts" / "calibrators"], with
    [PROJECT_ROOT] resolved from the module's [__file__]. *)
Variable CAL_DIR : string.

(** [train_user_calibrator(user_id, min_rows)]: the saved path or the raised
    exception, and the calibrator files afterwards. [csv] is the label file
    ([None] when missing); [cov_min] is [meta.get("conf_coverage_min", 0.30)]. *)
Definition train_user_calibrator (cov_min : Q) (csv : option LabelTable)
    (user_id : string) (min_rows : Z) (store : cal_store)
    : (TrainError + string) * cal_store :=
  match csv with
  | None => (inl FileNotFoundError, store)
  | Some t =>
      if negb (has_stress_prob t) then (inl KeyErrorStressProb, store) else
      let df := qualifying cov_min user_id t in
      if (Z.of_nat (length df) <? min_rows)%Z
      then (inl (InsufficientRows min_rows (length df)), store)
      else match fit_calibrator df with
           | None => (inl FitError, store)
           | Some cal =>
               (* str(CAL_DIR / f"cal_{user_id}.json"), with the POSIX separator *)
               (inr (CAL_DIR ++ "/cal_" ++ user_id ++ ".json")%string,
                <[user_id := cal]> store)
           end
  end.

End Train.

End Training.

(* ------------------------------------------------------------------ *)
(** ** OnlineStats and RiskEngine (streamlit_app.py, lines 106-123, 346-383) *)

Module Risk.

Local Open Scope R_scope.

Abbreviation vec := (list R).

(** [OnlineStats]: [mu] and [var] are [None] before the first update. *)
Record OnlineStats := mkStats { st_alpha : R; mu : option vec; var : option vec }.

Definition new_stats : OnlineStats := mkStats 0.05 None None.

(** [OnlineStats.update]; the variance uses the updated mean. *)
Definition stats_update (s : OnlineStats) (x : vec) : OnlineStats :=
  match mu s, var s with
  | Some m, Some v =>
      let a := st_alpha s in
      let m' := map (fun '(mi, xi) => (1 - a) * mi + a * xi) (combine m x) in
      let v' := map (fun '(vi, (xi, mi)) => (1 - a) * vi + a * (xi - mi) ^ 2)
                    (combine v (combine x m')) in
      mkStats a (Some m') (Some v')
  | _, _ => mkStats (st_alpha s) (Some x) (Some (map (fun _ => 1e-6) x))
  end.

(** [OnlineStats.z]. *)
Definition stats_z (s : OnlineStats) (x : vec) : vec :=
  match mu s, var s with
  | Some m, Some v =>
      map (fun '(xi, (mi, vi)) => (xi - mi) / sqrt (Rmax vi 1e-6))
          (combine x (combine m v))
  | _, _ => map (fun _ => 0) x
  end.

(** [clipped_mean]: mean of the absolute values clipped to [-3, 3]. *)
Definition clipped_mean (values : list R) : R :=
  fold_right Rplus 0 (map (fun v => Rabs (Rmin (Rmax v (-3)) 3)) values)
  / INR (length values).

(** [X_hist[-120:]]. *)
Definition last_n {A} (n : nat) (l : list A) : list A := skipn (length l - n) l.

(** [RiskEngine]. [iforest_fits] lists the training sets passed to
    [self.iforest.fit], most recent first: the fitted forest is the model of
    its head. *)
Record RiskEngine := mkEngine {
  stats : OnlineStats;
  if_ready : bool;
  X_hist : list vec;
  iforest_fits : list (list vec)
}.

Definition new_engine : RiskEngine := mkEngine new_stats false [] [].

Inductive level := Low | Medium | High.

(** The driver indices of [idx]. *)
Definition driver_idx : list nat := [0; 2; 3; 4; 5; 8]%nat.

Definition feature_labels : list string :=
  ["focus_switches"; "app_entropy"; "tab_churn"; "scroll_fano"; "ikl_var";
   "backspace_ratio"; "mouse_speed_cv"; "idle_mean"; "social_pct"]%string.

(** [sorted(..., key=t[1], reverse=True)] is stable: an element goes after
    every element whose key is not smaller. *)
Fixpoint insert_desc (a : string * R) (l : list (string * R)) : list (string * R) :=
  match l with
  | [] => [a]
  | b :: rest => if Rlt_dec (snd b) (snd a) then a :: b :: rest else b :: insert_desc a rest
  end.

Definition sort_desc (l : list (string * R)) : list (string * R) :=
  fold_left (fun acc a => insert_desc a acc) l [].

Section Engine.

(** [IsolationForest(...).fit(data).score_samples([x])[0]]. *)
Variable score_samples : list vec -> vec -> R.

(** [RiskEngine.update_and_score(x)]: [(risk, level, drivers)] and the engine
    afterwards. *)
Definition update_and_score (e : RiskEngine) (x : vec)
    : (R * level * list (string * R)) * RiskEngine :=
  let st := stats_update (stats e) x in
  let hist := X_hist e ++ [x] in
  let '(ready, fits) :=
    if negb (if_ready e) && (30 <? length hist)%nat
    then (true, last_n 120 hist :: iforest_fits e)
    else (if_ready e, iforest_fits e) in
  let z := stats_z st x in
  let risk_stat := clipped_mean (map (fun i => nth i z 0) driver_idx) in
  let risk_if :=
    if ready then
      let score := - score_samples (hd [] fits) x in
      Rmax 0 (Rmin 1 (score / 3))
    else 0 in
  let risk := 0.6 * Rmax 0 (Rmin 1 (risk_stat / 3)) + 0.4 * risk_if in
  let lvl := if Rlt_dec 0.75 risk then High
             else if Rlt_dec 0.45 risk then Medium else Low in
  let drivers := firstn 3 (sort_desc (combine feature_labels z)) in
  ((risk, lvl, drivers), mkEngine st ready hist fits).

(** A sequence of calls. *)
Fixpoint run_engine (e : RiskEngine) (xs : list vec) : RiskEngine :=
  match xs with
  | [] => e
  | x :: rest => run_engine (snd (update_and_score e x)) rest
  end.

End Engine.

End Risk.

(* ================================================================== *)
(** * Properties of the TemporalSmoother *)

Module SmootherFacts.

Import Smoother.
Local Open Scope Q_scope.

Lemma Qle_bool_false (x y : Q) : y < x -> Qle_bool x y = false.
Proof.
  intros H. destruct (Qle_bool x y) eqn:E; [|reflexivity].
  apply Qle_bool_iff in E. exfalso. apply (Qlt_not_le y x H E).
Qed.


Lemma convex_below (a p e u : Q) :
  0 <= a -> a <= 1 -> p < u -> e < u -> a * p + (1 - a) * e < u.
Proof.
  intros Ha0 Ha1 Hp He.
  assert (H1 : 0 <= (1 - a) * (u - e)) by (apply Qmult_le_0_compat; qlra).
  destruct (Qlt_le_dec 0 a) as [Ha|Ha].
  - assert (H2 : 0 < a * (u - p)) by (apply Qmult_lt_0_compat; qlra). qnra.
  - assert (a == 0) as Hz by qlra. rewrite Hz. qlra.
Qed.

Lemma convex_above (a p e l : Q) :
  0 <= a -> a <= 1 -> l < p -> l < e -> l < a * p + (1 - a) * e.
Proof.
  intros Ha0 Ha1 Hp He.
  assert (H1 : 0 <= (1 - a) * (e - l)) by (apply Qmult_le_0_compat; qlra).
  destruct (Qlt_le_dec 0 a) as [Ha|Ha].
  - assert (H2 : 0 < a * (p - l)) by (apply Qmult_lt_0_compat; qlra). qnra.
  - assert (a == 0) as Hz by qlra. rewrite Hz. qlra.
Qed.


(** [step] changes only the dynamic fields. *)
Lemma step_params (s : TemporalSmoother) p idle :
  let s' := snd (step s p idle) in
  alpha_active s' = alpha_active s /\ alpha_idle s' = alpha_idle s /\
  on_t s' = on_t s /\ off_t s' = off_t s /\
  idle_reset_k s' = idle_reset_k s /\ baseline s' = baseline s.
Proof.
  unfold step. destruct idle, (_ema s);
    repeat match goal with |- context [if ?c then _ else _] => destruct c end;
    simpl; repeat split.
Qed.





(** One non-idle step with an input strictly inside the band keeps a
    consistent decision. *)
Lemma step_band_keeps (s : TemporalSmoother) p :
  0 <= alpha_active s -> alpha_active s <= 1 -> consistent s ->
  off_t s < p < on_t s ->
  snd (fst (step s p false)) = _state s /\ consistent (snd (step s p false)) /\
  _state (snd (step s p false)) = _state s.
Proof.
  intros Ha0 Ha1 Hc [Hlo Hhi]. unfold step, consistent in *. simpl.
  destruct Hc as [[Hs He]|[Hs He]]; rewrite Hs; simpl;
    destruct (_ema s) as [e|]; simpl.
  - assert (H : alpha_active s * p + (1 - alpha_active s) * e < on_t s)
      by (apply convex_below; assumption).
    rewrite (Qle_bool_false _ _ H). simpl. auto.
  - rewrite (Qle_bool_false _ _ Hhi). simpl. auto.
  - assert (H : off_t s < alpha_active s * p + (1 - alpha_active s) * e)
      by (apply convex_above; assumption).
    rewrite (Qle_bool_false _ _ H). simpl. auto.
  - contradiction.
Qed.

Lemma run_band_keeps (s : TemporalSmoother) (ps : list Q) :
  0 <= alpha_active s -> alpha_active s <= 1 -> consistent s ->
  Forall (fun p => off_t s < p < on_t s) ps ->
  Forall (fun o => snd o = _state s) (fst (run s (map (fun p => (p, false)) ps))).
Proof.
  revert s. induction ps as [|p ps IH]; intros s Ha0 Ha1 Hc Hps; [simpl; constructor|].
  inversion Hps as [|? ? Hp Hrest]; subst.
  destruct (step_band_keeps s p Ha0 Ha1 Hc Hp) as (Hd & Hc' & Hst).
  destruct (step_params s p false) as (H1 & _ & H3 & H4 & _).
  cbn [map run]. destruct (step s p false) as [o s1] eqn:E.
  cbn [snd fst] in Hd, Hc', Hst, H1, H3, H4.
  specialize (IH s1). rewrite H1, H3, H4, Hst in IH.
  destruct (run s1 (map (fun p0 => (p0, false)) ps)) as [os s2]. cbn [fst] in *.
  constructor; [exact Hd|]. apply IH; assumption.
Qed.

Lemma run_cons (s : TemporalSmoother) (x : Q * bool) xs :
  run s (x :: xs) =
  let '(o, s1) := step s (fst x) (snd x) in
  let '(os, s2) := run s1 xs in (o :: os, s2).
Proof. destruct x. reflexivity. Qed.

(** One idle step from a non-negative streak leaves a streak of at least 1. *)
Lemma step_idle_count (s : TemporalSmoother) p :
  (0 <= _idle_count s)%Z -> (1 <= _idle_count (snd (step s p true)))%Z.
Proof.
  intros H. unfold step. simpl.
  destruct (idle_reset_k s <=? _idle_count s + 1)%Z; simpl;
    repeat match goal with |- context [if ?c then _ else _] => destruct c end;
    simpl; lia.
Qed.

(** Once the streak is due, each idle step resets to the baseline, calm. *)
Lemma step_idle_reset (s : TemporalSmoother) p :
  (idle_reset_k s <= _idle_count s + 1)%Z -> baseline s < on_t s ->
  step s p true =
  ((baseline s, 0%Z), set_dyn s (Some (baseline s)) 0 (_idle_count s + 1)).
Proof.
  intros Hk Hb. unfold step. simpl.
  replace (idle_reset_k s <=? _idle_count s + 1)%Z with true
    by (symmetry; apply Z.leb_le; exact Hk).
  simpl. rewrite (Qle_bool_false _ _ Hb). reflexivity.
Qed.

Lemma run_idle_reset (s : TemporalSmoother) (p : Q) (ps : list Q) :
  (idle_reset_k s <= _idle_count s + 1)%Z -> baseline s < on_t s ->
  let '(outs, s') := run s (map (fun q => (q, true)) (p :: ps)) in
  _ema s' = Some (baseline s) /\ _state s' = 0%Z /\
  last outs = Some (baseline s, 0%Z).
Proof.
  revert s p. induction ps as [|p2 ps IH]; intros s p Hk Hb.
  - cbn [map]. rewrite run_cons. cbn [fst snd].
    rewrite (step_idle_reset s p Hk Hb). simpl. auto.
  - change (map (fun q => (q, true)) (p :: p2 :: ps))
      with ((p, true) :: map (fun q => (q, true)) (p2 :: ps)).
    rewrite run_cons. cbn [fst snd]. rewrite (step_idle_reset s p Hk Hb).
    cbv beta iota.
    set (s1 := set_dyn s (Some (baseline s)) 0 (_idle_count s + 1)).
    assert (Hk1 : (idle_reset_k s1 <= _idle_count s1 + 1)%Z) by (simpl; lia).
    specialize (IH s1 p2 Hk1 Hb). revert IH.
    destruct (run s1 (map (fun q => (q, true)) (p2 :: ps))) as [os s2].
    intros (H1 & H2 & H3). cbv beta iota.
    split; [exact H1|]. split; [exact H2|].
    destruct os as [|o os]; [discriminate|]. exact H3.
Qed.












End SmootherFacts.

Module SmootherClaims.

Import Smoother SmootherFacts.
Local Open Scope Q_scope.




(** Claim C2: with [idle_reset_k = 2], [baseline = 0.20] and
    [on_thresh = 0.60], after at least two consecutive idle windows (whatever
    the probabilities fed) the internal EMA is the baseline, the state is
    OFF and the last emitted decision is OFF. *)
Theorem idle_suppression (s : TemporalSmoother) (ps : list Q) :
  idle_reset_k s = 2%Z -> baseline s = 0.20 -> on_t s = 0.60 ->
  (0 <= _idle_count s)%Z -> (2 <= length ps)%nat ->
  let '(outs, s') := run s (map (fun p => (p, true)) ps) in
  _ema s' = Some 0.20 /\ _state s' = 0%Z /\ last outs = Some (0.20, 0%Z).
Proof.
  intros Hk Hb Hon Hic Hlen.
  destruct ps as [|p1 [|p2 ps]]; simpl in Hlen; try lia.
  change (map (fun p => (p, true)) (p1 :: p2 :: ps))
    with ((p1, true) :: map (fun p => (p, true)) (p2 :: ps)).
  rewrite run_cons. cbn [fst snd].
  pose proof (step_idle_count s p1 Hic) as Hic1.
  destruct (step_params s p1 true) as (_ & _ & H3 & _ & H5 & H6).
  destruct (step s p1 true) as [o1 s1]. cbn [snd] in Hic1, H3, H5, H6.
  assert (Hk1 : (idle_reset_k s1 <= _idle_count s1 + 1)%Z) by lia.
  assert (Hb1 : baseline s1 < on_t s1)
    by (rewrite H3, H6, Hb, Hon; reflexivity).
  pose proof (run_idle_reset s1 p2 ps Hk1 Hb1) as Hrun.
  rewrite H6, Hb in Hrun.
  destruct (run s1 (map (fun q => (q, true)) (p2 :: ps))) as [os s2].
  destruct Hrun as (H1 & H2 & Hl). cbv beta iota.
  split; [exact H1|]. split; [exact H2|].
  destruct os as [|o os]; [discriminate|]. exact Hl.
Qed.

Lemma idle_suppression_witness :
  let '(outs, s') := run (snd (step default_smoother 0.8 false))
                         (map (fun p => (p, true)) [0.95; 0.9]) in
  _ema s' = Some 0.20 /\ _state s' = 0%Z /\ last outs = Some (0.20, 0%Z).
Proof.
  apply (idle_suppression (snd (step default_smoother 0.8 false)) [0.95; 0.9]);
    try reflexivity.
  all: vm_compute; discriminate.
Defined.


(** The spec's scenario: 0.8 while active turns the decision ON, two idle
    windows then force it OFF with the EMA at the baseline. *)
Example smoother_scenario :
  let '(outs, s') := run default_smoother [(0.8, false); (0.8, true); (0.8, true)] in
  map snd outs = [1%Z; 1%Z; 0%Z] /\ _ema s' = Some 0.20 /\ _state s' = 0%Z.
Proof. split; [|split]; reflexivity. Qed.



End SmootherClaims.

(* ================================================================== *)
(** * Properties of [predict] and [predict_from_row] *)

Module PredictorClaims.

Import Smoother Features Predictor.
Local Open Scope Q_scope.

Lemma py_min_le_right (a b : Q) : py_min a b <= b.
Proof.
  unfold py_min. destruct (Qle_bool a b) eqn:E; simpl.
  - apply Qle_bool_iff. exact E.
  - apply Qle_refl.
Qed.

(** The calibrator [predict] loads is the one of the row's [user_id]. *)
Lemma predict_store_ext (head_prob : list Q -> Q) (platt : Q -> Q -> Q -> Q)
    (float_repr : Q -> string) (P : BehaviorPredictor) (store store2 : cal_store)
    (row : record) (sm : option TemporalSmoother) :
  store !! py_str float_repr (get row "user_id" (PStr "harsh")) =
  store2 !! py_str float_repr (get row "user_id" (PStr "harsh")) ->
  predict head_prob platt float_repr P store row sm =
  predict head_prob platt float_repr P store2 row sm.
Proof.
  intros H. unfold predict, load_user_calibrator. cbv zeta. rewrite H. reflexivity.
Qed.

(** A reference configuration: the defaults of [BehaviorPredictor.__init__]
    with a one-feature schema. *)
Definition demo_predictor : BehaviorPredictor :=
  mkPredictor ["ks_keydowns"%string] 0.5 0.35 0.10 0.10 0.10.

(** Claim C5: whenever the row is flagged idle, [predict] (if it returns)
    reports [is_stressed = false] and a calibrated probability at most the
    idle clamp, whatever the head score, the calibrator and the smoother's
    prior state; the smoother is left OFF. *)
Theorem idle_forces_calm (head_prob : list Q -> Q) (platt : Q -> Q -> Q -> Q)
    (float_repr : Q -> string) (P : BehaviorPredictor) (store : cal_store)
    (row : record) (sm : option TemporalSmoother)
    (o : PredictOutput) (sm' : TemporalSmoother) :
  _is_idle row = Some true ->
  predict head_prob platt float_repr P store row sm = Some (o, sm') ->
  is_stressed o = false /\ calibrated_prob o <= idle_clamp P /\ _state sm' = 0%Z.
Proof.
  intros Hidle Hp. unfold predict in Hp. cbv zeta in Hp.
  destruct (_extract_features row (feature_names P)) as [x|]; [|discriminate].
  cbn [obind] in Hp.
  match type of Hp with
  | context [obind (if ?c then _ else _) _] => destruct c
  end.
  - destruct (predict_proba _ _ _) as [q|]; [|discriminate]. cbn [obind] in Hp.
    rewrite Hidle in Hp. cbn [obind] in Hp.
    destruct (step _ _ true) as [[e d] s1]. injection Hp as <- <-.
    split; [reflexivity|]. split; [apply py_min_le_right|reflexivity].
  - cbn [obind] in Hp. rewrite Hidle in Hp. cbn [obind] in Hp.
    destruct (step _ _ true) as [[e d] s1]. injection Hp as <- <-.
    split; [reflexivity|]. split; [apply py_min_le_right|reflexivity].
Qed.

Lemma idle_forces_calm_witness :
  exists o sm',
    predict (fun _ => 0.9) (fun _ _ _ => 0) (fun _ => ""%string) demo_predictor
      (<["harsh"%string := mkCal (Some 2) (Some 0)]> ∅)
      (<["active_seconds_fraction"%string := PFloat 0.01]> ∅)
      (Some (snd (step (predictor_smoother demo_predictor) 0.9 false))) = Some (o, sm') /\
    is_stressed o = false /\ calibrated_prob o <= idle_clamp demo_predictor /\
    _state sm' = 0%Z.
Proof.
  eexists. eexists. split; [reflexivity|].
  apply (idle_forces_calm (fun _ => 0.9) (fun _ _ _ => 0) (fun _ => ""%string)
           demo_predictor (<["harsh"%string := mkCal (Some 2) (Some 0)]> ∅)
           (<["active_seconds_fraction"%string := PFloat 0.01]> ∅)
           (Some (snd (step (predictor_smoother demo_predictor) 0.9 false)))).
  - reflexivity.
  - reflexivity.
Defined.

(** Claim C3 (as amended): when the calibrator loaded for the row's user is
    unfit, [predict] takes the raw head probability itself as the calibrated
    probability (capped by the idle clamp on an idle window) and reports
    [has_calibrator = false]; [predict_proba] on that calibrator would raise. *)
Theorem unfit_calibrator_identity (head_prob : list Q -> Q)
    (platt : Q -> Q -> Q -> Q) (float_repr : Q -> string) (P : BehaviorPredictor)
    (store : cal_store) (row : record) (sm : option TemporalSmoother)
    (idle : bool) (o : PredictOutput) (sm' : TemporalSmoother) :
  let cal := load_user_calibrator store
               (py_str float_repr (get row "user_id" (PStr "harsh"))) in
  is_fit cal = false ->
  _is_idle row = Some idle ->
  predict head_prob platt float_repr P store row sm = Some (o, sm') ->
  has_calibrator o = false /\
  calibrated_prob o = (if idle then py_min (raw_prob o) (idle_clamp P) else raw_prob o) /\
  (forall score, predict_proba platt cal score = None).
Proof.
  intros cal Hfit Hidle Hp. unfold predict in Hp. cbv zeta in Hp.
  fold cal in Hp. rewrite Hfit in Hp.
  destruct (_extract_features row (feature_names P)) as [x|]; [|discriminate].
  cbn [obind] in Hp. rewrite Hidle in Hp. cbn [obind] in Hp.
  destruct (step _ _ idle) as [[e d] s1].
  destruct idle; injection Hp as <- <-; simpl.
  all: split; [reflexivity|]; split; [reflexivity|].
  all: intros score; unfold predict_proba, is_fit in *;
       destruct (coef_ cal), (intercept_ cal); try reflexivity; discriminate.
Qed.

(** An active row ([ks_keydowns = 12]) of an entity with no calibrator file. *)
Definition active_row : record :=
  <["ks_keydowns"%string := PInt 12]> ∅.

Lemma unfit_calibrator_identity_witness :
  match predict (fun _ => 0.3) (fun _ _ _ => 0) (fun _ => ""%string) demo_predictor
          ∅ active_row None with
  | Some (o, sm') =>
      has_calibrator o = false /\
      calibrated_prob o =
        (if false then py_min (raw_prob o) (idle_clamp demo_predictor) else raw_prob o) /\
      (forall score,
         predict_proba (fun _ _ _ => 0)
           (load_user_calibrator ∅
              (py_str (fun _ => ""%string) (get active_row "user_id" (PStr "harsh"))))
           score = None)
  | None => False
  end.
Proof.
  destruct (predict (fun _ => 0.3) (fun _ _ _ => 0) (fun _ => ""%string)
              demo_predictor ∅ active_row None) as [[o sm']|] eqn:E;
    [|vm_compute in E; discriminate E].
  apply (unfit_calibrator_identity (fun _ => 0.3) (fun _ _ _ => 0)
           (fun _ => ""%string) demo_predictor ∅ active_row None false o sm').
  - reflexivity.
  - reflexivity.
  - exact E.
Defined.

(** Claim C3 fails as stated: for the raw score 0 and an unfit calibrator,
    the calibrated probability is 0, while [1/(1+e^-0)] is 1/2. *)
Lemma calibrator_fallback_counterexample :
  match predict (fun _ => 0) (fun _ _ _ => 0) (fun _ => ""%string) demo_predictor
          ∅ active_row None with
  | Some (o, _) =>
      has_calibrator o = false /\ raw_prob o = 0 /\
      Q2R (calibrated_prob o) <> spec_sigmoid_fallback (Q2R (raw_prob o))
  | None => False
  end.
Proof.
  vm_compute predict. cbn [has_calibrator raw_prob calibrated_prob].
  split; [reflexivity|]. split; [reflexivity|].
  unfold spec_sigmoid_fallback.
  replace (Q2R 0) with 0%R by (unfold Q2R; simpl; lra).
  rewrite Ropp_0, exp_0. lra.
Qed.

(** Claim C6 (a defect): a record holding the text ["abc"] at a schema name
    makes [_extract_features] raise ([float("abc")] is a [ValueError]) instead
    of substituting 0.0. *)
Theorem extract_features_raises_on_text :
  _extract_features (<["a"%string := PStr "abc"]> ∅) ["a"%string] = None.
Proof. reflexivity. Qed.

(** The spec's scenario: schema [["a"; "b"]] and record [{"a": 3.0}]. *)
Example extract_features_scenario :
  _extract_features (<["a"%string := PFloat 3]> ∅) ["a"; "b"]%string = Some [3; 0].
Proof. reflexivity. Qed.

(** An empty record gives the all-zero vector of the schema's length. *)
Lemma extract_features_empty (schema : list string) :
  _extract_features ∅ schema = Some (repeat 0 (length schema)).
Proof.
  induction schema as [|n schema IH]; [reflexivity|].
  unfold _extract_features in *. simpl. rewrite IH. reflexivity.
Qed.

(** Claim C10: when neither the [user_id] argument nor [row["user_id"]] is
    truthy, [predict_from_row] uses the entity ["harsh"]: its result and the
    registry entry it leaves depend on the smoother registry and the
    calibrator files only at ["harsh"], no other registry entry changes, and
    the reported [user_id] is ["harsh"]. *)
Theorem anonymous_requests_share_harsh (head_prob : list Q -> Q)
    (platt : Q -> Q -> Q -> Q) (float_repr : Q -> string) (P : BehaviorPredictor)
    (reg reg2 : registry) (store store2 : cal_store) (row : record)
    (user_id : option string) :
  (user_id = None \/ user_id = Some ""%string) ->
  truthy (get row "user_id" PNone) = false ->
  reg !! "harsh"%string = reg2 !! "harsh"%string ->
  store !! "harsh"%string = store2 !! "harsh"%string ->
  let r1 := predict_from_row head_prob platt float_repr P reg store row user_id in
  let r2 := predict_from_row head_prob platt float_repr P reg2 store2 row user_id in
  fst r1 = fst r2 /\ snd r1 !! "harsh"%string = snd r2 !! "harsh"%string /\
  (forall k, k <> "harsh"%string -> snd r1 !! k = reg !! k) /\
  (forall o, fst r1 = Some o -> out_user_id o = "harsh"%string).
Proof.
  intros Hu Hrow Hreg Hstore r1 r2.
  assert (Huid : entity_id float_repr user_id row = "harsh"%string).
  { unfold entity_id, py_or. destruct Hu as [-> | ->]; simpl; rewrite Hrow; reflexivity. }
  assert (Hkey : forall r : record,
            py_str float_repr (get (<["user_id"%string := PStr "harsh"]> r) "user_id"
                                 (PStr "harsh")) = "harsh"%string).
  { intros r. unfold get. rewrite lookup_insert_eq. reflexivity. }
  subst r1 r2. unfold predict_from_row. rewrite Huid, Hreg.
  rewrite (predict_store_ext head_prob platt float_repr P store store2)
    by (rewrite Hkey; exact Hstore).
  set (sm := match reg2 !! "harsh"%string with
             | Some s => s | None => predictor_smoother P end).
  destruct (_extract_features row (feature_names P)) as [x|].
  - destruct (predict head_prob platt float_repr P store2
                (<["user_id"%string := PStr "harsh"]> row) (Some sm)) as [[o sm']|].
    + cbn [fst snd]. split; [reflexivity|]. split.
      { rewrite !lookup_insert_eq. reflexivity. }
      split.
      { intros k Hk. rewrite lookup_insert_ne by congruence. reflexivity. }
      intros o' Ho. destruct (omap (get_float0 row) activity_keys); [|discriminate].
      cbn in Ho. injection Ho as <-. reflexivity.
    + cbn [fst snd]. split; [reflexivity|]. split.
      { rewrite !lookup_insert_eq. reflexivity. }
      split; [|discriminate].
      intros k Hk. rewrite lookup_insert_ne by congruence. reflexivity.
  - cbn [fst snd]. split; [reflexivity|]. split.
    { rewrite !lookup_insert_eq. reflexivity. }
    split; [|discriminate].
    intros k Hk. rewrite lookup_insert_ne by congruence. reflexivity.
Qed.

Lemma anonymous_requests_share_harsh_witness :
  let reg := <["alice"%string := default_smoother]> ∅ in
  let r1 := predict_from_row (fun _ => 0.7) (fun _ _ _ => 0) (fun _ => ""%string)
              demo_predictor reg ∅ active_row None in
  let r2 := predict_from_row (fun _ => 0.7) (fun _ _ _ => 0) (fun _ => ""%string)
              demo_predictor ∅ ∅ active_row None in
  fst r1 = fst r2 /\ snd r1 !! "harsh"%string = snd r2 !! "harsh"%string /\
  (forall k, k <> "harsh"%string -> snd r1 !! k = reg !! k) /\
  (forall o, fst r1 = Some o -> out_user_id o = "harsh"%string).
Proof.
  apply (anonymous_requests_share_harsh (fun _ => 0.7) (fun _ _ _ => 0)
           (fun _ => ""%string) demo_predictor
           (<["alice"%string := default_smoother]> ∅) ∅ ∅ ∅ active_row None).
  - left. reflexivity.
  - reflexivity.
  - reflexivity.
  - reflexivity.
Defined.

End PredictorClaims.

(* ================================================================== *)
(** * Calibrator training *)

Module TrainingClaims.

Import Predictor Training.
Local Open Scope Q_scope.

(** Claim C7: when the label table (with its [stress_prob] column) leaves
    fewer than [min_rows] rows for the user after the quality filters,
    [train_user_calibrator] raises the insufficient-rows [ValueError] and
    the calibrator files are exactly as before. *)
Theorem insufficient_rows_no_mutation
    (fit_calibrator : list LabelRow -> option PlattCalibrator) (CAL_DIR : string)
    (cov_min : Q) (t : LabelTable) (user_id : string) (min_rows : Z)
    (store : cal_store) :
  has_stress_prob t = true ->
  (Z.of_nat (length (qualifying cov_min user_id t)) < min_rows)%Z ->
  train_user_calibrator fit_calibrator CAL_DIR cov_min (Some t) user_id min_rows store =
  (inl (InsufficientRows min_rows (length (qualifying cov_min user_id t))), store).
Proof.
  intros Hcol Hlt. unfold train_user_calibrator. rewrite Hcol. simpl.
  replace (Z.of_nat (length (qualifying cov_min user_id t)) <? min_rows)%Z with true
    by (symmetry; apply Z.ltb_lt; exact Hlt).
  reflexivity.
Qed.

(** A label file with three confident rows for ["harsh"], one of them
    unlabelled, and one row of another user. *)
Definition small_table : LabelTable :=
  mkLabelTable true true true true
    [mkLabelRow "harsh" (Some 1) (Some 0.9) (Some 0.7);
     mkLabelRow "harsh" (Some 1) (Some 0.5) (Some 0.2);
     mkLabelRow "harsh" (Some 1) (Some 0.8) None;
     mkLabelRow "bob" (Some 1) (Some 0.9) (Some 0.4)]%string.

Lemma insufficient_rows_no_mutation_witness :
  train_user_calibrator (fun _ => Some (mkCal (Some 1) (Some 0))) "/srv/app/artifacts/calibrators"
    0.30 (Some small_table) "harsh"%string 200 ∅ =
  (inl (InsufficientRows 200 2), ∅).
Proof.
  apply (insufficient_rows_no_mutation (fun _ => Some (mkCal (Some 1) (Some 0)))
           "/srv/app/artifacts/calibrators" 0.30 small_table "harsh"%string 200 ∅).
  - reflexivity.
  - reflexivity.
Defined.

End TrainingClaims.

(* ================================================================== *)
(** * RiskEngine *)

Module RiskClaims.

Import Risk.
Local Open Scope R_scope.







Lemma update_engine_fields (score_samples : list vec -> vec -> R) (e : RiskEngine) (x : vec) :
  let e' := snd (update_and_score score_samples e x) in
  X_hist e' = X_hist e ++ [x] /\
  (if_ready e', iforest_fits e') =
  (if negb (if_ready e) && (30 <? length (X_hist e ++ [x]))%nat
   then (true, last_n 120 (X_hist e ++ [x]) :: iforest_fits e)
   else (if_ready e, iforest_fits e)).
Proof.
  unfold update_and_score. cbv zeta.
  destruct (negb (if_ready e) && (30 <? length (X_hist e ++ [x]))%nat); split; reflexivity.
Qed.

(** The fit-once invariant, in terms of the history so far. *)
Definition fit_once_inv (e : RiskEngine) : Prop :=
  if_ready e = (30 <? length (X_hist e))%nat /\
  iforest_fits e = (if (30 <? length (X_hist e))%nat then [firstn 31 (X_hist e)] else []).

Lemma fit_once_step (score_samples : list vec -> vec -> R) (e : RiskEngine) (x : vec) :
  fit_once_inv e -> fit_once_inv (snd (update_and_score score_samples e x)).
Proof.
  intros [Hr Hf]. destruct (update_engine_fields score_samples e x) as [Hh Hrf].
  set (e' := snd (update_and_score score_samples e x)) in *.
  unfold fit_once_inv. rewrite Hh. rewrite length_app. simpl length.
  rewrite Hr, Hf in Hrf. rewrite length_app in Hrf. simpl length in Hrf.
  destruct (Nat.ltb_spec 30 (length (X_hist e))) as [Hgt|Hle].
  - replace (30 <? length (X_hist e) + 1)%nat with true in *
      by (symmetry; apply Nat.ltb_lt; lia).
    simpl in Hrf. injection Hrf as -> ->. split; [reflexivity|].
    rewrite firstn_app. replace (31 - length (X_hist e))%nat with 0%nat by lia.
    rewrite app_nil_r. reflexivity.
  - simpl in Hrf. destruct (Nat.ltb_spec 30 (length (X_hist e) + 1)) as [Hgt1|Hle1].
    + injection Hrf as -> ->. split; [reflexivity|].
      unfold last_n. rewrite length_app. simpl length.
      replace (length (X_hist e) + 1 - 120)%nat with 0%nat by lia. simpl skipn.
      rewrite firstn_all2; [reflexivity|]. rewrite length_app. simpl. lia.
    + injection Hrf as -> ->. split; reflexivity.
Qed.

Lemma run_engine_inv (score_samples : list vec -> vec -> R) (xs : list vec) :
  forall e, fit_once_inv e ->
  fit_once_inv (run_engine score_samples e xs) /\
  X_hist (run_engine score_samples e xs) = X_hist e ++ xs.
Proof.
  induction xs as [|x xs IH]; intros e He; simpl.
  - rewrite app_nil_r. auto.
  - destruct (IH _ (fit_once_step score_samples e x He)) as [Hi Hh].
    split; [exact Hi|]. rewrite Hh.
    destruct (update_engine_fields score_samples e x) as [Hx _].
    rewrite Hx, <- app_assoc. reflexivity.
Qed.

(** Claim C9: over any sequence of calls on a new engine, the isolation
    forest is fitted at most once: on the 31st call, over the 31 vectors seen
    so far (at most the last 120), after which the engine is ready and later
    calls never fit it again. *)
Theorem anomaly_fit_once (score_samples : list vec -> vec -> R) (xs : list vec) :
  let e := run_engine score_samples new_engine xs in
  if_ready e = (30 <? length xs)%nat /\
  iforest_fits e = (if (30 <? length xs)%nat then [firstn 31 xs] else []) /\
  Forall (fun d => (length d <= 120)%nat) (iforest_fits e).
Proof.
  assert (H0 : fit_once_inv new_engine) by (split; reflexivity).
  destruct (run_engine_inv score_samples xs new_engine H0) as [[Hr Hf] Hh].
  simpl in Hh. rewrite Hh in Hr, Hf. cbv zeta.
  split; [exact Hr|]. split; [exact Hf|]. rewrite Hf.
  destruct (30 <? length xs)%nat; constructor; [|constructor].
  rewrite length_firstn. lia.
Qed.

End RiskClaims.

(* ================================================================== *)
(** * Further properties of the scoring service *)

Module ServiceFacts.

Import Smoother SmootherFacts Features Predictor.
Local Open Scope Q_scope.

Lemma is_idle_insert_ne (row : record) (k : string) (v : pyval) :
  ~ In k activity_keys -> _is_idle (<[k := v]> row) = _is_idle row.
Proof.
  intros Hk.
  assert (Hg : forall n, In n activity_keys ->
                 get_float0 (<[k := v]> row) n = get_float0 row n).
  { intros n Hn. unfold get_float0, get.
    rewrite lookup_insert_ne; [reflexivity|]. intros ->. contradiction. }
  unfold _is_idle.
  rewrite !Hg; try reflexivity; unfold activity_keys; simpl; tauto.
Qed.

(** [_is_idle] reads only the seven activity fields: setting any other key
    (a model feature, [user_id], ...) never changes its answer. *)
Theorem is_idle_frame (row : record) (k : string) (v : pyval) :
  ~ In k activity_keys -> _is_idle (<[k := v]> row) = _is_idle row.
Proof. apply is_idle_insert_ne. Qed.

Lemma is_idle_frame_witness :
  let row := <["ks_keydowns"%string := PInt 12]> (∅ : record) in
  _is_idle (<["ks_keyups_total"%string := PStr "x"]> row) = _is_idle row.
Proof.
  apply is_idle_frame. unfold activity_keys. simpl.
  intros H. repeat (destruct H as [H|H]; [discriminate H|]). exact H.
Defined.

End ServiceFacts.

Module PredictFacts.

Import Smoother Features Predictor ServiceFacts.
Local Open Scope Q_scope.

Section WithModel.

Variable head_prob : list Q -> Q.
Variable platt : Q -> Q -> Q -> Q.
Variable float_repr : Q -> string.

(** [predict] returns only after [_is_idle] has returned. *)
Lemma predict_is_idle (P : BehaviorPredictor) (store : cal_store) (row : record)
    (sm : option TemporalSmoother) r :
  predict head_prob platt float_repr P store row sm = Some r ->
  exists b, _is_idle row = Some b.
Proof.
  unfold predict. cbv zeta.
  destruct (_extract_features row (feature_names P)); [|discriminate]. cbn [obind].
  match goal with |- context [obind (if ?c then ?t else ?e) ?f] =>
    destruct (if c then t else e) as [[c0 h]|]; cbn [obind]; [|discriminate] end.
  destruct (_is_idle row) as [b|]; [eauto|discriminate].
Qed.

(** All seven activity conversions succeed once [_is_idle] has returned. *)
Lemma is_idle_activity (row : record) b :
  _is_idle row = Some b -> exists act, omap (get_float0 row) activity_keys = Some act.
Proof.
  unfold _is_idle, activity_keys. cbn [omap].
  repeat (destruct (get_float0 row _); cbn [obind]; [|discriminate]).
  intros _. eauto.
Qed.

(** [predict] returns as soon as the features and the activity fields convert:
    a fitted calibrator never raises and an unfit one is skipped. *)
Lemma predict_some (P : BehaviorPredictor) (store : cal_store) (row : record)
    (sm : option TemporalSmoother) x b :
  _extract_features row (feature_names P) = Some x -> _is_idle row = Some b ->
  exists r, predict head_prob platt float_repr P store row sm = Some r.
Proof.
  intros Hx Hb. unfold predict. cbv zeta. rewrite Hx. cbn [obind].
  match goal with |- context [is_fit ?c] =>
    destruct (is_fit c) eqn:Hf; unfold predict_proba;
    [unfold is_fit in Hf; destruct (coef_ c), (intercept_ c); try discriminate|] end;
  cbn [obind]; rewrite Hb; cbn [obind];
  match goal with |- context [step ?s ?p ?i] => destruct (step s p i) as [[e d] s1] end;
  destruct b; eauto.
Qed.

(** The decision [predict] reports is the state it leaves the smoother in,
    and the smoothed probability it reports is the smoother's stored EMA. *)
Theorem predict_reports_state (P : BehaviorPredictor) (store : cal_store)
    (row : record) (sm : option TemporalSmoother) (o : PredictOutput)
    (sm' : TemporalSmoother) :
  predict head_prob platt float_repr P store row sm = Some (o, sm') ->
  is_stressed o = negb (_state sm' =? 0)%Z /\ _ema sm' = Some (smoothed_prob o).
Proof.
  unfold predict. cbv zeta.
  destruct (_extract_features row (feature_names P)); [|discriminate]. cbn [obind].
  match goal with |- context [obind (if ?c then ?t else ?e) ?f] =>
    destruct (if c then t else e) as [[c0 h]|]; cbn [obind]; [|discriminate] end.
  destruct (_is_idle row) as [b|]; cbn [obind]; [|discriminate].
  match goal with |- context [step ?s ?p ?i] =>
    destruct (step s p i) as [[e d] s1] eqn:Es end.
  unfold step in Es. cbv zeta in Es.
  repeat match type of Es with context [if ?c then _ else _] => destruct c end;
    injection Es as <- <- <-; intros H; injection H as <- <-;
    split; reflexivity.
Qed.

(** On an active window of a user whose calibrator is fitted, [predict]
    reports [has_calibrator = true] and the calibrated probability is the
    Platt map of the raw head probability. *)
Theorem predict_fitted_calibrator (P : BehaviorPredictor) (store : cal_store)
    (row : record) (sm : option TemporalSmoother) (a b : Q) (o : PredictOutput)
    (sm' : TemporalSmoother) :
  load_user_calibrator store (py_str float_repr (get row "user_id" (PStr "harsh")))
    = mkCal (Some a) (Some b) ->
  _is_idle row = Some false ->
  predict head_prob platt float_repr P store row sm = Some (o, sm') ->
  has_calibrator o = true /\ calibrated_prob o = platt a b (raw_prob o).
Proof.
  intros Hc Hi. unfold predict. cbv zeta. rewrite Hc.
  destruct (_extract_features row (feature_names P)); [|discriminate].
  cbn [obind is_fit predict_proba coef_ intercept_]. rewrite Hi. cbn [obind].
  match goal with |- context [step ?s ?p ?i] =>
    destruct (step s p i) as [[e d] s1] end.
  intros H. injection H as <- <-. split; reflexivity.
Qed.

(** [predict_from_row] touches only the registry entry of its [uid]. That
    entry exists after every call. When the call raises, the entry is the
    smoother the user had before, or a fresh one. When it returns, the entry
    is the smoother [predict] advanced, and the result is [predict]'s output
    for the row with [user_id] set to [uid]. *)
Theorem predict_from_row_registry (P : BehaviorPredictor) (reg : registry)
    (store : cal_store) (row : record) (user_id : option string) :
  let uid := entity_id float_repr user_id row in
  let sm0 := match reg !! uid with Some s => s | None => predictor_smoother P end in
  let r := predict_from_row head_prob platt float_repr P reg store row user_id in
  (forall k, k <> uid -> snd r !! k = reg !! k) /\
  (fst r = None -> snd r !! uid = Some sm0) /\
  (forall o, fst r = Some o ->
     out_user_id o = uid /\
     exists sm', predict head_prob platt float_repr P store
                   (<["user_id" := PStr uid]> row) (Some sm0) = Some (out o, sm') /\
                 snd r !! uid = Some sm')%string.
Proof.
  intros uid sm0 r. subst r. unfold predict_from_row. fold uid. fold sm0.
  destruct (_extract_features row (feature_names P)) as [x|].
  2:{ cbn [fst snd]. split; [|split; [|discriminate]].
      - intros k Hk. apply lookup_insert_ne. congruence.
      - intros _. apply lookup_insert_eq. }
  destruct (predict head_prob platt float_repr P store
              (<["user_id" := PStr uid]> row) (Some sm0)) as [[o sm']|] eqn:Hp.
  2:{ cbn [fst snd]. split; [|split; [|discriminate]].
      - intros k Hk. apply lookup_insert_ne. congruence.
      - intros _. apply lookup_insert_eq. }
  cbn [fst snd]. split; [|split].
  - intros k Hk. apply lookup_insert_ne. congruence.
  - destruct (predict_is_idle _ _ _ _ _ Hp) as [b Hb].
    rewrite is_idle_insert_ne in Hb by (unfold activity_keys; simpl; intuition discriminate).
    destruct (is_idle_activity row b Hb) as [act Hact]. rewrite Hact. discriminate.
  - intros o' Ho. destruct (omap (get_float0 row) activity_keys); [|discriminate].
    cbn [obind] in Ho. injection Ho as <-. split; [reflexivity|].
    exists sm'. split; [reflexivity|]. apply lookup_insert_eq.
Qed.

(** A non-empty [user_id] argument overrides the row's own [user_id]: the
    result and the registry entry depend only on that user's smoother and
    calibrator, and the reply carries that id. *)
Theorem explicit_user_id_overrides (P : BehaviorPredictor) (reg reg2 : registry)
    (store store2 : cal_store) (row : record) (s : string) :
  s <> ""%string ->
  reg !! s = reg2 !! s -> store !! s = store2 !! s ->
  let r1 := predict_from_row head_prob platt float_repr P reg store row (Some s) in
  let r2 := predict_from_row head_prob platt float_repr P reg2 store2 row (Some s) in
  fst r1 = fst r2 /\ snd r1 !! s = snd r2 !! s /\
  (forall o, fst r1 = Some o -> out_user_id o = s).
Proof.
  intros Hs Hreg Hstore r1 r2.
  assert (Huid : entity_id float_repr (Some s) row = s).
  { unfold entity_id, py_or. simpl.
    destruct (String.eqb s "") eqn:E; [apply String.eqb_eq in E; contradiction|].
    simpl. rewrite E. reflexivity. }
  assert (Hkey : forall r : record,
            py_str float_repr (get (<["user_id"%string := PStr s]> r) "user_id"
                                 (PStr "harsh")) = s).
  { intros r. unfold get. rewrite lookup_insert_eq. reflexivity. }
  subst r1 r2. unfold predict_from_row. rewrite Huid, Hreg.
  rewrite (PredictorClaims.predict_store_ext head_prob platt float_repr P store store2)
    by (rewrite Hkey; exact Hstore).
  destruct (_extract_features row (feature_names P)) as [x|].
  - match goal with |- context [predict ?a ?b ?c ?d ?e ?f ?g] =>
      destruct (predict a b c d e f g) as [[o sm']|] end.
    + cbn [fst snd]. split; [reflexivity|]. split.
      { rewrite !lookup_insert_eq. reflexivity. }
      intros o' Ho. destruct (omap (get_float0 row) activity_keys); [|discriminate].
      cbn in Ho. injection Ho as <-. reflexivity.
    + cbn [fst snd]. split; [reflexivity|]. split; [|discriminate].
      rewrite !lookup_insert_eq. reflexivity.
  - cbn [fst snd]. split; [reflexivity|]. split; [|discriminate].
    rewrite !lookup_insert_eq. reflexivity.
Qed.

End WithModel.

(** A predictor with the defaults of [__init__] and a two-feature schema. *)
Definition sample_predictor : BehaviorPredictor :=
  mkPredictor ["ks_keydowns"; "mouse_move_count"]%string 0.5 0.35 0.10 0.10 0.10.

(** An active window: twelve key presses. *)
Definition sample_row : record := <["ks_keydowns"%string := PInt 12]> ∅.

Definition sample_store : cal_store := <["harsh"%string := mkCal (Some 2) (Some 0)]> ∅.

Lemma predict_reports_state_witness :
  match predict (fun _ => 0.7) (fun a b z => a * z + b) (fun _ => ""%string)
          sample_predictor sample_store sample_row None with
  | Some (o, sm') => is_stressed o = negb (_state sm' =? 0)%Z /\
                     _ema sm' = Some (smoothed_prob o)
  | None => False
  end.
Proof.
  destruct (predict (fun _ => 0.7) (fun a b z => a * z + b) (fun _ => ""%string)
              sample_predictor sample_store sample_row None) as [[o sm']|] eqn:E;
    [|vm_compute in E; discriminate E].
  apply (predict_reports_state (fun _ => 0.7) (fun a b z => a * z + b)
           (fun _ => ""%string) sample_predictor sample_store sample_row None).
  exact E.
Defined.

Lemma predict_fitted_calibrator_witness :
  match predict (fun _ => 0.7) (fun a b z => a * z + b) (fun _ => ""%string)
          sample_predictor sample_store sample_row None with
  | Some (o, sm') => has_calibrator o = true /\
                     calibrated_prob o = 2 * raw_prob o + 0
  | None => False
  end.
Proof.
  destruct (predict (fun _ => 0.7) (fun a b z => a * z + b) (fun _ => ""%string)
              sample_predictor sample_store sample_row None) as [[o sm']|] eqn:E;
    [|vm_compute in E; discriminate E].
  apply (predict_fitted_calibrator (fun _ => 0.7) (fun a b z => a * z + b)
           (fun _ => ""%string) sample_predictor sample_store sample_row None 2 0 o sm').
  - reflexivity.
  - reflexivity.
  - exact E.
Defined.

Lemma predict_from_row_registry_witness :
  let reg := <["bob"%string := predictor_smoother sample_predictor]> ∅ in
  let uid := entity_id (fun _ => ""%string) (Some "alice"%string) sample_row in
  let sm0 := match reg !! uid with Some s => s | None => predictor_smoother sample_predictor end in
  let r := predict_from_row (fun _ => 0.7) (fun a b z => a * z + b) (fun _ => ""%string)
             sample_predictor reg sample_store sample_row (Some "alice"%string) in
  (forall k, k <> uid -> snd r !! k = reg !! k) /\
  (fst r = None -> snd r !! uid = Some sm0) /\
  (forall o, fst r = Some o ->
     out_user_id o = uid /\
     exists sm', predict (fun _ => 0.7) (fun a b z => a * z + b) (fun _ => ""%string)
                   sample_predictor sample_store
                   (<["user_id" := PStr uid]> sample_row) (Some sm0) = Some (out o, sm') /\
                 snd r !! uid = Some sm')%string.
Proof.
  exact (predict_from_row_registry (fun _ => 0.7) (fun a b z => a * z + b)
           (fun _ => ""%string) sample_predictor
           (<["bob"%string := predictor_smoother sample_predictor]> ∅)
           sample_store sample_row (Some "alice"%string)).
Defined.

Lemma explicit_user_id_overrides_witness :
  let row := <["user_id"%string := PStr "bob"]> sample_row in
  let r1 := predict_from_row (fun _ => 0.7) (fun a b z => a * z + b) (fun _ => ""%string)
              sample_predictor (<["bob"%string := default_smoother]> ∅) sample_store
              row (Some "alice"%string) in
  let r2 := predict_from_row (fun _ => 0.7) (fun a b z => a * z + b) (fun _ => ""%string)
              sample_predictor ∅ ∅ row (Some "alice"%string) in
  fst r1 = fst r2 /\ snd r1 !! "alice"%string = snd r2 !! "alice"%string /\
  (forall o, fst r1 = Some o -> out_user_id o = "alice"%string).
Proof.
  apply (explicit_user_id_overrides (fun _ => 0.7) (fun a b z => a * z + b)
           (fun _ => ""%string) sample_predictor (<["bob"%string := default_smoother]> ∅)
           ∅ sample_store ∅ (<["user_id"%string := PStr "bob"]> sample_row) "alice"%string).
  - discriminate.
  - reflexivity.
  - reflexivity.
Defined.

End PredictFacts.

(* ================================================================== *)
(** * Calibrator training *)

Module TrainFacts.

Import Smoother Features Predictor Training.
Local Open Scope Q_scope.

Section Train.

Variable fit_calibrator : list LabelRow -> option PlattCalibrator.
Variable CAL_DIR : string.


(** Training then scoring: once [train_user_calibrator] has returned for a
    user, [predict] on any window of that user reports [has_calibrator = true]
    ([PlattCalibrator.fit] always sets both coefficients). *)
Theorem train_then_predict_uses_calibrator (head_prob : list Q -> Q)
    (platt : Q -> Q -> Q -> Q) (float_repr : Q -> string)
    (cov_min : Q) (csv : option LabelTable) (user_id : string) (min_rows : Z)
    (store store' : cal_store) (path : string) (P : BehaviorPredictor) (row : record)
    (sm : option TemporalSmoother) (o : PredictOutput) (sm' : TemporalSmoother) :
  (forall rs c, fit_calibrator rs = Some c -> is_fit c = true) ->
  train_user_calibrator fit_calibrator CAL_DIR cov_min csv user_id min_rows store = (inr path, store') ->
  py_str float_repr (get row "user_id" (PStr "harsh")) = user_id ->
  predict head_prob platt float_repr P store' row sm = Some (o, sm') ->
  has_calibrator o = true.
Proof.
  intros Hfit Htr Huid. unfold predict. cbv zeta. rewrite Huid.
  assert (Hc : is_fit (load_user_calibrator store' user_id) = true).
  { unfold train_user_calibrator in Htr.
    destruct csv as [t|]; [|discriminate].
    destruct (negb (has_stress_prob t)); [discriminate|].
    destruct (Z.of_nat (length (qualifying cov_min user_id t)) <? min_rows)%Z;
      [discriminate|].
    destruct (fit_calibrator (qualifying cov_min user_id t)) as [c|] eqn:Hf;
      [|discriminate].
    injection Htr as _ <-. unfold load_user_calibrator. rewrite lookup_insert_eq.
    exact (Hfit _ _ Hf). }
  rewrite Hc.
  destruct (_extract_features row (feature_names P)); [|discriminate]. cbn [obind].
  destruct (predict_proba platt (load_user_calibrator store' user_id) (head_prob l));
    cbn [obind]; [|discriminate].
  destruct (_is_idle row) as [b|]; cbn [obind]; [|discriminate].
  match goal with |- context [step ?s ?p ?i] =>
    destruct (step s p i) as [[e d] s1] end.
  destruct b; intros H; injection H as <- <-; reflexivity.
Qed.

End Train.

(** A label file with one confident, labelled row of ["harsh"]. *)
Definition one_row_table : LabelTable :=
  mkLabelTable true true true true
    [mkLabelRow "harsh" (Some 1) (Some 0.9) (Some 0.7);
     mkLabelRow "bob" (Some 1) (Some 0.9) (Some 0.4)]%string.


Lemma train_then_predict_uses_calibrator_witness :
  let fit := fun _ : list LabelRow => Some (mkCal (Some 1) (Some 0)) in
  let store' := snd (train_user_calibrator fit "/srv/app/artifacts/calibrators" 0.30
                       (Some one_row_table) "harsh" 1 ∅) in
  match predict (fun _ => 0.7) (fun a b z => a * z + b) (fun _ => ""%string)
          PredictFacts.sample_predictor store' PredictFacts.sample_row None with
  | Some (o, sm') => has_calibrator o = true
  | None => False
  end.
Proof.
  cbv zeta.
  match goal with |- match ?m with Some _ => _ | None => _ end =>
    destruct m as [[o sm']|] eqn:E; [|vm_compute in E; discriminate E] end.
  apply (train_then_predict_uses_calibrator (fun _ => Some (mkCal (Some 1) (Some 0)))
           "/srv/app/artifacts/calibrators" (fun _ => 0.7) (fun a b z => a * z + b) (fun _ => ""%string)
           0.30 (Some one_row_table) "harsh" 1 ∅
           (snd (train_user_calibrator (fun _ => Some (mkCal (Some 1) (Some 0)))
                   "/srv/app/artifacts/calibrators" 0.30 (Some one_row_table) "harsh" 1 ∅))
           "/srv/app/artifacts/calibrators/cal_harsh.json"
           PredictFacts.sample_predictor PredictFacts.sample_row None o sm').
  - intros rs c H. injection H as <-. reflexivity.
  - reflexivity.
  - reflexivity.
  - exact E.
Defined.

End TrainFacts.

(* ================================================================== *)
(** * Further properties of the RiskEngine *)

Module RiskFacts.

Import Risk.
Local Open Scope R_scope.

Lemma clamp01 (t : R) : 0 <= Rmax 0 (Rmin 1 t) <= 1.
Proof.
  split; [apply Rmax_l|]. apply Rmax_lub; [lra|apply Rmin_l].
Qed.

Lemma clamp_le (t c : R) : 0 <= c -> t <= c -> Rmax 0 (Rmin 1 t) <= c.
Proof.
  intros Hc Ht. apply Rmax_lub; [exact Hc|].
  apply (Rle_trans _ t); [apply Rmin_r|exact Ht].
Qed.

Lemma clip_abs_bounds (v : R) : 0 <= Rabs (Rmin (Rmax v (-3)) 3) <= 3.
Proof.
  split; [apply Rabs_pos|]. apply Rabs_le. split.
  - apply Rmin_glb; [apply Rmax_r|lra].
  - apply Rmin_r.
Qed.

Lemma clip_abs_zero : Rabs (Rmin (Rmax 0 (-3)) 3) = 0.
Proof.
  rewrite Rmax_left by lra. rewrite Rmin_left by lra. apply Rabs_R0.
Qed.

(** The value [update_and_score] returns, as a function of the two partial
    scores. *)
Lemma update_and_score_risk (score_samples : list vec -> vec -> R) (e : RiskEngine) (x : vec) :
  exists ri, 0 <= ri <= 1 /\
    (if_ready (snd (update_and_score score_samples e x)) = false -> ri = 0) /\
    let z := stats_z (stats_update (stats e) x) x in
    let risk := 0.6 * Rmax 0 (Rmin 1 (clipped_mean (map (fun i => nth i z 0) driver_idx) / 3))
                + 0.4 * ri in
    fst (update_and_score score_samples e x) =
    (risk, (if Rlt_dec 0.75 risk then High else if Rlt_dec 0.45 risk then Medium else Low),
     firstn 3 (sort_desc (combine feature_labels z))).
Proof.
  unfold update_and_score. cbv zeta.
  destruct (negb (if_ready e) && (30 <? length (X_hist e ++ [x]))%nat).
  - cbv beta iota. eexists. split; [apply clamp01|]. split; [discriminate|]. reflexivity.
  - cbv beta iota. destruct (if_ready e).
    + eexists. split; [apply clamp01|]. split; [discriminate|]. reflexivity.
    + exists 0. split; [lra|]. split; [reflexivity|]. reflexivity.
Qed.

(** Every call of [update_and_score] returns a risk in [0, 1] and the level
    its cut-offs give: high exactly above 0.75, low exactly at or below 0.45,
    medium in between; the vector is appended to the history. *)
Theorem update_and_score_bounds (score_samples : list vec -> vec -> R)
    (e : RiskEngine) (x : vec) :
  let '((risk, lvl, _), e') := update_and_score score_samples e x in
  0 <= risk <= 1 /\ (lvl = High <-> 0.75 < risk) /\ (lvl = Low <-> risk <= 0.45) /\
  X_hist e' = X_hist e ++ [x].
Proof.
  destruct (RiskClaims.update_engine_fields score_samples e x) as [Hh _].
  destruct (update_and_score_risk score_samples e x) as (ri & Hri & _ & Hv).
  cbv zeta in Hv.
  destruct (update_and_score score_samples e x) as [[[risk lvl] drivers] e'].
  cbn [fst snd] in Hv, Hh. injection Hv as Hrisk Hlvl _.
  set (rs := Rmax 0 (Rmin 1 _)) in Hrisk, Hlvl.
  assert (Hrs : 0 <= rs <= 1) by apply clamp01.
  assert (Hr : 0 <= risk <= 1) by (rewrite Hrisk; lra).
  rewrite <- Hrisk in Hlvl.
  split; [exact Hr|]. split; [|split; [|exact Hh]].
  - destruct (Rlt_dec 0.75 risk) as [H|H]; [|destruct (Rlt_dec 0.45 risk)];
      subst lvl; split; intros Hx; try discriminate; try reflexivity; lra.
  - destruct (Rlt_dec 0.75 risk) as [H|H]; [|destruct (Rlt_dec 0.45 risk)];
      subst lvl; split; intros Hx; try discriminate; try reflexivity; lra.
Qed.

Lemma z_after_first_update (x : vec) :
  stats_z (stats_update new_stats x) x = map (fun _ => 0) x.
Proof.
  unfold stats_update, stats_z. simpl.
  induction x as [|a x IH]; [reflexivity|]. simpl. rewrite IH. f_equal.
  unfold Rminus, Rdiv. rewrite Rplus_opp_r. apply Rmult_0_l.
Qed.

Lemma nth_map_zero {A} (x : list A) (i : nat) : nth i (map (fun _ => 0) x) 0 = 0.
Proof.
  revert i. induction x as [|a x IH]; intros [|i]; simpl; auto.
Qed.

Lemma insert_desc_ties (a : string * R) (l : list (string * R)) :
  Forall (fun b => snd b = snd a) l -> insert_desc a l = l ++ [a].
Proof.
  induction l as [|b l IH]; intros H; [reflexivity|].
  inversion H as [|? ? Hb Hl]; subst. simpl.
  destruct (Rlt_dec (snd b) (snd a)) as [Hlt|_]; [rewrite Hb in Hlt; lra|].
  rewrite IH by exact Hl. reflexivity.
Qed.

(** With all keys equal, the stable descending sort keeps the order. *)
Lemma sort_ties (c : R) (l acc : list (string * R)) :
  Forall (fun b => snd b = c) (acc ++ l) ->
  fold_left (fun acc a => insert_desc a acc) l acc = acc ++ l.
Proof.
  revert acc. induction l as [|a l IH]; intros acc H; simpl.
  - rewrite app_nil_r. reflexivity.
  - apply Forall_app in H as [Hacc Hal]. apply Forall_cons in Hal as [Ha Hl].
    rewrite insert_desc_ties.
    + rewrite IH; [rewrite <- app_assoc; reflexivity|].
      rewrite <- app_assoc. apply Forall_app. split; [exact Hacc|].
      simpl. constructor; [exact Ha|exact Hl].
    + eapply Forall_impl; [exact Hacc|]. intros b Hb. simpl in *. congruence.
Qed.

Lemma combine_zero {A} (l : list string) (x : list A) :
  Forall (fun b => snd b = 0) (combine l (map (fun _ => 0) x)).
Proof.
  revert x. induction l as [|a l IH]; intros [|b x]; simpl; constructor; auto.
Qed.

(** The first call on a new engine always scores 0 and is low: the vector
    is its own mean, so every z-score is 0 and the forest is not fitted yet;
    with at least three features the drivers are the first three features
    with z = 0, in feature order. *)
Theorem first_call_calm (score_samples : list vec -> vec -> R) (x : vec) :
  let '((risk, lvl, drivers), _) := update_and_score score_samples new_engine x in
  risk = 0 /\ lvl = Low /\
  ((3 <= length x)%nat ->
   drivers = [("focus_switches", 0); ("app_entropy", 0); ("tab_churn", 0)]%string).
Proof.
  unfold update_and_score. cbv zeta. simpl (X_hist new_engine ++ [x]).
  simpl (negb (if_ready new_engine) && (30 <? length [x]))%nat.
  cbv beta iota. simpl (stats new_engine). rewrite z_after_first_update.
  unfold driver_idx. cbn [map]. rewrite !nth_map_zero.
  assert (Hcm : clipped_mean [0; 0; 0; 0; 0; 0] = 0).
  { unfold clipped_mean. cbn [map fold_right]. rewrite clip_abs_zero.
    unfold Rdiv. rewrite !Rplus_0_l. apply Rmult_0_l. }
  rewrite Hcm.
  assert (Hrisk : 0.6 * Rmax 0 (Rmin 1 (0 / 3)) + 0.4 * 0 = 0).
  { unfold Rdiv. rewrite Rmult_0_l. rewrite Rmin_right by lra.
    rewrite Rmax_left by lra. lra. }
  replace (30 <? 1)%nat with false by reflexivity.
  simpl (if_ready new_engine). cbv beta iota.
  rewrite Hrisk. split; [reflexivity|].
  split.
  { destruct (Rlt_dec 0.75 0); [lra|]. destruct (Rlt_dec 0.45 0); [lra|]. reflexivity. }
  intros Hlen.
  destruct x as [|x0 [|x1 [|x2 x]]]; simpl in Hlen; try lia.
  unfold sort_desc. rewrite (sort_ties 0) by exact (combine_zero _ _).
  unfold feature_labels. reflexivity.
Qed.

(** The order [sorted(..., key=t[1], reverse=True)] produces. *)
Definition desc (a b : string * R) : Prop := snd b <= snd a.

Lemma insert_desc_perm (a : string * R) (l : list (string * R)) :
  Permutation (insert_desc a l) (a :: l).
Proof.
  induction l as [|b l IH]; simpl; [reflexivity|].
  destruct (Rlt_dec (snd b) (snd a)); [reflexivity|].
  rewrite IH. apply perm_swap.
Qed.

Lemma insert_desc_hd (a b : string * R) (l : list (string * R)) :
  HdRel desc b l -> desc b a -> HdRel desc b (insert_desc a l).
Proof.
  intros Hl Hba. destruct l as [|c l]; simpl; [constructor; exact Hba|].
  destruct (Rlt_dec (snd c) (snd a)); constructor; [exact Hba|].
  inversion Hl; assumption.
Qed.

Lemma insert_desc_sorted (a : string * R) (l : list (string * R)) :
  Sorted desc l -> Sorted desc (insert_desc a l).
Proof.
  induction l as [|b l IH]; intros Hs; simpl.
  - repeat constructor.
  - inversion Hs as [|? ? Hl Hb]; subst.
    destruct (Rlt_dec (snd b) (snd a)) as [Hlt|Hge].
    + constructor; [exact Hs|]. constructor. unfold desc. lra.
    + constructor; [apply IH; exact Hl|].
      apply insert_desc_hd; [exact Hb|]. unfold desc. lra.
Qed.

Lemma sort_desc_spec (l acc : list (string * R)) :
  Sorted desc acc ->
  Sorted desc (fold_left (fun acc a => insert_desc a acc) l acc) /\
  Permutation (fold_left (fun acc a => insert_desc a acc) l acc) (l ++ acc).
Proof.
  revert acc. induction l as [|a l IH]; intros acc Hs; simpl; [split; [exact Hs|reflexivity]|].
  destruct (IH (insert_desc a acc) (insert_desc_sorted a acc Hs)) as [H1 H2].
  split; [exact H1|]. rewrite H2, insert_desc_perm. symmetry. apply Permutation_middle.
Qed.

Lemma strongly_sorted_app (l1 l2 : list (string * R)) :
  StronglySorted desc (l1 ++ l2) -> Forall (fun d => Forall (desc d) l2) l1.
Proof.
  induction l1 as [|a l1 IH]; intros H; simpl in H; constructor.
  - inversion H as [|? ? _ Ha]; subst.
    apply Forall_forall. intros r Hr. rewrite Forall_forall in Ha.
    apply Ha. apply elem_of_app. right. exact Hr.
  - apply IH. inversion H; assumption.
Qed.

Lemma sorted_app_l (l1 l2 : list (string * R)) :
  Sorted desc (l1 ++ l2) -> Sorted desc l1.
Proof.
  induction l1 as [|a l IH]; intros H; [constructor|].
  simpl in H. inversion H as [|? ? Hl Ha]; subst. constructor; [apply (IH Hl)|].
  destruct l as [|b l]; [constructor|].
  inversion Ha; subst. constructor. assumption.
Qed.

(** The drivers [update_and_score] reports are the top three z-scores: at
    most three (feature, z) pairs of this call, in descending z order, and
    every pair left out has a z-score at most that of each driver. *)
Theorem drivers_top3 (score_samples : list vec -> vec -> R) (e : RiskEngine) (x : vec) :
  let z := stats_z (stats_update (stats e) x) x in
  let '((_, _, drivers), _) := update_and_score score_samples e x in
  (length drivers <= 3)%nat /\ Sorted desc drivers /\
  exists rest, Permutation (drivers ++ rest) (combine feature_labels z) /\
               Forall (fun d => Forall (fun r => snd r <= snd d) rest) drivers.
Proof.
  intros z.
  destruct (update_and_score_risk score_samples e x) as (ri & _ & _ & Hv).
  cbv zeta in Hv. fold z in Hv.
  destruct (update_and_score score_samples e x) as [[[risk lvl] drivers] e'].
  cbn [fst] in Hv. injection Hv as _ _ Hd0.
  assert (Hd : drivers = firstn 3 (sort_desc (combine feature_labels z))) by exact Hd0.
  clear Hd0.
  destruct (sort_desc_spec (combine feature_labels z) [] (Sorted_nil _)) as [Hs Hp].
  fold (sort_desc (combine feature_labels z)) in Hs, Hp. rewrite app_nil_r in Hp.
  revert Hd Hs Hp. generalize (sort_desc (combine feature_labels z)). intros s Hd Hs Hp.
  subst drivers.
  assert (Hss : StronglySorted desc s).
  { apply Sorted_StronglySorted; [|exact Hs]. intros a b c Hab Hbc. unfold desc in *. lra. }
  rewrite <- (firstn_skipn 3 s) in Hss, Hs.
  split; [rewrite length_firstn; lia|]. split.
  - apply (sorted_app_l _ (skipn 3 s)). exact Hs.
  - exists (skipn 3 s). split; [rewrite firstn_skipn; exact Hp|].
    apply strongly_sorted_app. exact Hss.
Qed.

Lemma stats_run_engine (score_samples : list vec -> vec -> R) (e : RiskEngine) (xs : list vec) :
  stats (run_engine score_samples e xs) = fold_left stats_update xs (stats e).
Proof.
  revert e. induction xs as [|x xs IH]; intros e; [reflexivity|]. simpl.
  rewrite IH. f_equal. unfold update_and_score. cbv zeta.
  destruct (negb (if_ready e) && (30 <? length (X_hist e ++ [x]))%nat); reflexivity.
Qed.

(** What [OnlineStats] keeps: its rate, and either nothing yet or a mean and
    a variance vector of the input dimension, every variance positive. *)
Definition stats_inv (n : nat) (first : bool) (st : OnlineStats) : Prop :=
  st_alpha st = 0.05 /\
  match mu st, var st with
  | None, None => first = true
  | Some m, Some v => length m = n /\ length v = n /\
                      List.Forall (fun vi => 0 < vi) v
  | _, _ => False
  end.

Lemma stats_update_inv (n : nat) (first : bool) (st : OnlineStats) (x : vec) :
  length x = n -> stats_inv n first st -> stats_inv n false (stats_update st x).
Proof.
  intros Hx [Ha Hmv]. unfold stats_update, stats_inv.
  destruct (mu st) as [m|], (var st) as [v|]; try contradiction.
  - destruct Hmv as (Hm & Hv & Hpos). cbn [st_alpha mu var]. split; [exact Ha|].
    rewrite Ha. split; [|split].
    + rewrite length_map, length_combine. lia.
    + rewrite length_map, !length_combine, length_map, length_combine. lia.
    + apply List.Forall_forall. intros y Hy. apply in_map_iff in Hy.
      destruct Hy as [[vi [xi mi]] [<- Hin]].
      apply in_combine_l in Hin.
      rewrite List.Forall_forall in Hpos. specialize (Hpos vi Hin).
      assert (0 <= (xi - mi) ^ 2) by apply pow2_ge_0. lra.
  - cbn [st_alpha mu var]. split; [exact Ha|]. split; [exact Hx|].
    split; [rewrite length_map; exact Hx|].
    apply List.Forall_forall. intros y Hy. apply in_map_iff in Hy.
    destruct Hy as [? [<- _]]. lra.
Qed.

(** The statistics of the engine keep the dimension of its inputs: after any
    calls with [n]-dimensional vectors, there is no mean exactly when there
    was no call, and otherwise the mean and the variance have [n] entries
    and every variance is positive. *)
Theorem engine_stats_invariant (score_samples : list vec -> vec -> R)
    (xs : list vec) (n : nat) :
  List.Forall (fun x => length x = n) xs ->
  let st := stats (run_engine score_samples new_engine xs) in
  st_alpha st = 0.05 /\
  match mu st, var st with
  | None, None => xs = []
  | Some m, Some v => length m = n /\ length v = n /\ List.Forall (fun vi => 0 < vi) v
  | _, _ => False
  end.
Proof.
  intros Hxs st. subst st. rewrite stats_run_engine. simpl (stats new_engine).
  assert (H : forall first st, stats_inv n first st ->
            stats_inv n (first && match xs with [] => true | _ => false end)
              (fold_left stats_update xs st)).
  { induction xs as [|x xs IH]; intros first st Hst; simpl.
    - rewrite andb_true_r. exact Hst.
    - apply Forall_cons in Hxs as [Hx Hrest].
      rewrite andb_false_r. specialize (IH Hrest false (stats_update st x)).
      rewrite andb_false_l in IH. apply IH. apply (stats_update_inv _ first); assumption. }
  destruct (H true new_stats (conj eq_refl eq_refl)) as [Ha Hmv].
  split; [exact Ha|].
  destruct (mu (fold_left stats_update xs new_stats)),
           (var (fold_left stats_update xs new_stats)); try exact Hmv.
  destruct xs; [reflexivity|discriminate].
Qed.

(** The vectors [features_to_vector] builds from the collector's minutes:
    nine entries, with [tab_churn] (index 2) and [scroll_fano] (index 3)
    equal to 0.0. *)
Definition collector_vec (x : vec) : Prop :=
  length x = 9%nat /\ nth 2 x 0 = 0 /\ nth 3 x 0 = 0.

Definition zero23_inv (st : OnlineStats) : Prop :=
  match mu st, var st with
  | None, None => True
  | Some m, Some v => length m = 9%nat /\ length v = 9%nat /\ nth 2 m 0 = 0 /\ nth 3 m 0 = 0
  | _, _ => False
  end.

Ltac list9 l :=
  destruct l as [|? [|? [|? [|? [|? [|? [|? [|? [|? [|? ?]]]]]]]]]];
  cbn [length nth] in *; try lia.

Lemma zero_ratio (n d : R) : n = 0 -> n / d = 0.
Proof. intros ->. unfold Rdiv. apply Rmult_0_l. Qed.

Lemma zero23_update (st : OnlineStats) (x : vec) :
  collector_vec x -> zero23_inv st ->
  zero23_inv (stats_update st x) /\
  nth 2 (stats_z (stats_update st x) x) 0 = 0 /\
  nth 3 (stats_z (stats_update st x) x) 0 = 0.
Proof.
  intros (Hl & H2 & H3) Hinv. unfold zero23_inv, stats_update, stats_z in *.
  destruct (mu st) as [m|], (var st) as [v|]; try contradiction.
  - destruct Hinv as (Hm & Hv & Hm2 & Hm3).
    list9 x. list9 m. list9 v. subst. cbn.
    repeat split; try reflexivity; try ring; apply zero_ratio; ring.
  - list9 x. subst. cbn. repeat split; try reflexivity; apply zero_ratio; ring.
Qed.

Lemma zero23_run (score_samples : list vec -> vec -> R) (xs : list vec) :
  List.Forall collector_vec xs -> zero23_inv (stats (run_engine score_samples new_engine xs)).
Proof.
  intros Hxs. rewrite stats_run_engine. simpl (stats new_engine).
  assert (H : forall st, zero23_inv st -> zero23_inv (fold_left stats_update xs st)).
  { induction xs as [|x xs IH]; intros st Hst; simpl; [exact Hst|].
    apply Forall_cons in Hxs as [Hx Hrest].
    apply (IH Hrest). apply (zero23_update st x Hx Hst). }
  apply H. exact I.
Qed.

Lemma clipped_mean_two_zero (a b c d : R) : clipped_mean [a; 0; 0; b; c; d] <= 2.
Proof.
  unfold clipped_mean. cbn [map fold_right length]. rewrite clip_abs_zero.
  pose proof (clip_abs_bounds a). pose proof (clip_abs_bounds b).
  pose proof (clip_abs_bounds c). pose proof (clip_abs_bounds d).
  simpl INR. apply Rmult_le_reg_r with (r := 6); [lra|].
  unfold Rdiv. rewrite Rmult_assoc.
  replace (/ (1 + 1 + 1 + 1 + 1 + 1) * 6) with 1 by field. lra.
Qed.

Lemma collector_vectors_bound (score_samples : list vec -> vec -> R)
    (xs : list vec) (x : vec) :
  List.Forall collector_vec xs -> collector_vec x ->
  let e := run_engine score_samples new_engine xs in
  let '((risk, lvl, _), _) := update_and_score score_samples e x in
  risk <= 0.8 /\ ((length xs < 30)%nat -> risk <= 0.4 /\ lvl = Low).
Proof.
  intros Hxs Hx e.
  destruct (zero23_update (stats e) x Hx (zero23_run score_samples xs Hxs))
    as (_ & Hz2 & Hz3).
  assert (H0 : RiskClaims.fit_once_inv new_engine) by (split; reflexivity).
  destruct (RiskClaims.run_engine_inv score_samples xs new_engine H0) as [[Hr _] Hh].
  simpl in Hh. fold e in Hr, Hh.
  destruct (RiskClaims.update_engine_fields score_samples e x) as [_ Hrf].
  destruct (update_and_score_risk score_samples e x) as (ri & Hri & Hready & Hv).
  cbv zeta in Hv.
  set (z := stats_z (stats_update (stats e) x) x) in *.
  unfold driver_idx in Hv. cbn [map] in Hv. rewrite Hz2, Hz3 in Hv.
  pose proof (clipped_mean_two_zero (nth 0 z 0) (nth 4 z 0) (nth 5 z 0) (nth 8 z 0)) as Hcm.
  assert (Hst : Rmax 0 (Rmin 1 (clipped_mean [nth 0 z 0; 0; 0; nth 4 z 0; nth 5 z 0; nth 8 z 0] / 3))
                <= 2 / 3).
  { apply clamp_le; [lra|]. unfold Rdiv. lra. }
  revert Hready Hrf Hv.
  destruct (update_and_score score_samples e x) as [[[risk lvl] drivers] e'].
  cbn [fst snd]. intros Hready Hrf Hv. injection Hv as Hrisk Hlvl _.
  set (rs := Rmax 0 (Rmin 1 _)) in Hst, Hrisk, Hlvl.
  rewrite <- Hrisk in Hlvl.
  split; [lra|].
  intros Hlen. rewrite Hr, Hh in Hrf.
  replace (30 <? length xs)%nat with false in Hrf by (symmetry; apply Nat.ltb_ge; lia).
  replace (30 <? length (xs ++ [x]))%nat with false in Hrf
    by (symmetry; apply Nat.ltb_ge; rewrite length_app; simpl; lia).
  simpl in Hrf. injection Hrf as Hr' _.
  rewrite (Hready Hr') in Hrisk. split; [lra|].
  subst lvl. destruct (Rlt_dec 0.75 risk); [lra|].
  destruct (Rlt_dec 0.45 risk); [lra|]. reflexivity.
Qed.

(** Fed with vectors whose [tab_churn] and [scroll_fano] entries are 0, as
    the collector's are, the engine's statistical part never exceeds 0.4:
    every call scores at most 0.8, and until the forest is fitted (the first
    30 calls) every call scores at most 0.4 and is low. *)
Theorem engine_collector_vectors_bound (score_samples : list vec -> vec -> R)
    (xs : list vec) (x : vec) :
  List.Forall collector_vec xs -> collector_vec x ->
  let e := run_engine score_samples new_engine xs in
  let '((risk, lvl, _), _) := update_and_score score_samples e x in
  risk <= 0.8 /\ ((length xs < 30)%nat -> risk <= 0.4 /\ lvl = Low).
Proof. apply collector_vectors_bound. Qed.

Lemma engine_stats_invariant_witness :
  List.Forall (fun x => length x = 2%nat) [[1; 2]; [3; 5]] /\
  (let st := stats (run_engine (fun _ _ => 0) new_engine [[1; 2]; [3; 5]]) in
   st_alpha st = 0.05 /\
   match mu st, var st with
   | None, None => [[1; 2]; [3; 5]] = []
   | Some m, Some v => length m = 2%nat /\ length v = 2%nat /\
                       List.Forall (fun vi => 0 < vi) v
   | _, _ => False
   end).
Proof.
  split; [repeat constructor|].
  apply (engine_stats_invariant (fun _ _ => 0) [[1; 2]; [3; 5]] 2).
  repeat constructor.
Defined.

Lemma engine_collector_vectors_bound_witness :
  List.Forall collector_vec [[4; 1; 0; 0; 2; 0.5; 1; 3; 0]] /\
  collector_vec [7; 2; 0; 0; 1; 0.25; 0.5; 10; 1] /\
  (let e := run_engine (fun _ _ => 0) new_engine [[4; 1; 0; 0; 2; 0.5; 1; 3; 0]] in
   let '((risk, lvl, _), _) := update_and_score (fun _ _ => 0) e [7; 2; 0; 0; 1; 0.25; 0.5; 10; 1] in
   risk <= 0.8 /\ ((length [[4; 1; 0; 0; 2; 0.5; 1; 3; 0]%R] < 30)%nat -> risk <= 0.4 /\ lvl = Low)).
Proof.
  assert (H1 : collector_vec [4; 1; 0; 0; 2; 0.5; 1; 3; 0]) by (repeat split).
  assert (H2 : collector_vec [7; 2; 0; 0; 1; 0.25; 0.5; 10; 1]) by (repeat split).
  split; [repeat constructor; exact H1|]. split; [exact H2|].
  apply engine_collector_vectors_bound; [repeat constructor; exact H1|exact H2].
Defined.

End RiskFacts.

(* ================================================================== *)
(** * The telemetry collector (streamlit_app.py, lines 86-344) *)

Module Minute.

Local Open Scope R_scope.

(** The [MinuteFeatures] dataclass. *)
Record MinuteFeatures := mkMinute {
  ts : R;
  focus_switches : Z;
  app_entropy : R;
  tab_churn : R;
  scroll_fano : R;
  ikl_var : R;
  backspace_ratio : R;
  mouse_speed_cv : R;
  idle_mean : R;
  social_pct : R;
  categories_share : list (string * R);
  top_title : string
}.

(** [features_to_vector]. *)
Definition features_to_vector (mf : MinuteFeatures) : Risk.vec :=
  [IZR (focus_switches mf); app_entropy mf; tab_churn mf; scroll_fano mf;
   ikl_var mf; backspace_ratio mf; mouse_speed_cv mf; idle_mean mf; social_pct mf].

End Minute.

Module Telemetry.

Import Minute.
Local Open Scope R_scope.

Definition CATEGORIES : list string :=
  ["work"; "learning"; "social"; "video"; "entertainment"; "shopping"; "news";
   "coding"; "utilities"]%string.

(** The state of a [TelemetryCollector] its handlers read and write (the
    thread, the listeners, the unused queue and the lock are left out: every
    handler runs under the lock, as one step). *)
Record Collector := mkCollector {
  cur_app : option string;
  last_app : option string;
  c_focus_switches : Z;
  key_last_ts : option R;
  ikls : list R;
  keystrokes : Z;
  backspaces : Z;
  mouse_speeds : list R;
  last_mouse_event_ts : option R;
  idle_samples : list R;
  last_any_input_ts : R;
  app_hist : list string;
  titles_in_minute : list string;
  minute_start : R;
  per_minute : list MinuteFeatures
}.

(** [TelemetryCollector.__init__], given the two [time.time()] readings. *)
Definition new_collector (t_input t_minute : R) : Collector :=
  mkCollector None None 0 None [] 0 0 [] None [] t_input [] [] t_minute [].

(** A key as the handler sees it: whether it has a [vk] attribute and its
    value ([None] for a [vk] of [None]), and whether it has a [name]. *)
Record KeyEvent := mkKey { key_vk : option (option Z); key_name : option string }.

(** [_on_key_press(key)] at time [now]. *)
Definition on_key_press (now : R) (key : KeyEvent) (c : Collector) : Collector :=
  let ikls' := match key_last_ts c with
               | Some t => ikls c ++ [now - t]
               | None => ikls c
               end in
  (* backspace detection (timing only) *)
  let bs := match key_vk key with
            | Some (Some 8%Z) => 1%Z
            | _ => match key_name key with
                   | Some n => if String.eqb n "backspace" then 1%Z else 0%Z
                   | None => 0%Z
                   end
            end in
  mkCollector (cur_app c) (last_app c) (c_focus_switches c) (Some now) ikls'
    (keystrokes c + 1) (backspaces c + bs) (mouse_speeds c) (last_mouse_event_ts c)
    (idle_samples c) now (app_hist c) (titles_in_minute c) (minute_start c)
    (per_minute c).

(** [_on_mouse_move(x, y)] at time [now]. *)
Definition on_mouse_move (now : R) (c : Collector) : Collector :=
  let speeds := match last_mouse_event_ts c with
                | Some t => let dt := now - t in
                            if Rlt_dec 0 dt then mouse_speeds c ++ [1 / dt]
                            else mouse_speeds c
                | None => mouse_speeds c
                end in
  mkCollector (cur_app c) (last_app c) (c_focus_switches c) (key_last_ts c) (ikls c)
    (keystrokes c) (backspaces c) speeds (Some now) (idle_samples c) now
    (app_hist c) (titles_in_minute c) (minute_start c) (per_minute c).

(** The active-app block of [_poll_loop]: [proc != self.cur_app] ... *)
Definition track_app (proc : option string) (c : Collector) : Collector :=
  let changed := match proc, cur_app c with
                 | Some p, Some a => negb (String.eqb p a)
                 | None, None => false
                 | _, _ => true
                 end in
  if changed then
    let last := cur_app c in
    let cur := match proc with
               | Some p => if String.eqb p "" then "unknown"%string else p
               | None => "unknown"%string
               end in
    let fs := match last with Some _ => (c_focus_switches c + 1)%Z
                              | None => c_focus_switches c end in
    mkCollector (Some cur) last fs (key_last_ts c) (ikls c) (keystrokes c)
      (backspaces c) (mouse_speeds c) (last_mouse_event_ts c) (idle_samples c)
      (last_any_input_ts c) (app_hist c ++ [cur]) (titles_in_minute c)
      (minute_start c) (per_minute c)
  else c.

(** [np.mean], [np.var] (population variance). *)
Definition mean (l : list R) : R := fold_right Rplus 0 l / INR (length l).
Definition pop_var (l : list R) : R := mean (map (fun v => (v - mean l) ^ 2) l).

(** [-sum(p * log2 p)] over the distinct values of [h] with their
    frequencies ([np.unique(..., return_counts=True)]). *)
Definition entropy (h : list string) : R :=
  - fold_right Rplus 0
      (map (fun a => let p := INR (count_occ string_dec h a) / INR (length h) in
                     p * (ln p / ln 2))
           (nodup string_dec h)).

(** [categories_mix[lbl] += float(score)] over [zip(zs["labels"], zs["scores"])];
    a label outside [CATEGORIES] raises [KeyError], which the surrounding
    [except] swallows: the additions made so far stay. *)
Fixpoint add_scores (zs : list (string * R)) (mix : list (string * R)) : list (string * R) :=
  match zs with
  | [] => mix
  | (lbl, score) :: rest =>
      if existsb (String.eqb lbl) CATEGORIES
      then add_scores rest (map (fun '(k, v) => if String.eqb k lbl then (k, v + score)
                                                else (k, v)) mix)
      else mix
  end.

(** [dict.get(k, 0.0)] on the category mix. *)
Fixpoint mix_get (mix : list (string * R)) (k : string) : R :=
  match mix with
  | [] => 0
  | (k', v) :: rest => if String.eqb k' k then v else mix_get rest k
  end.

Section Finalize.

(** [zero_shot(title, CATEGORIES, multi_label=True)] as its label/score
    pairs; [None] when the pipeline raises. *)
Variable zero_shot : string -> option (list (string * R)).
(** [max(set(titles), key=titles.count)]: a most frequent title; among ties
    the one [set] iteration (string hashing) meets first. *)
Variable top_of : list string -> string.

(** [_finalize_minute()], with [ts] the [time.time()] it reads. *)
Definition finalize_minute (ts_now : R) (c : Collector) : Collector :=
  (* compute app entropy *)
  let app_entropy := match app_hist c with
                     | [] => 0
                     | _ => entropy (Risk.last_n 30 (app_hist c))
                     end in
  (* compute inter-key latency variance + backspace ratio *)
  let ikl_var := match ikls c with [] => 0 | l => pop_var l end in
  let backspace_ratio := IZR (backspaces c) / IZR (Z.max (keystrokes c) 1) in
  (* mouse speed coefficient of variation *)
  let mouse_speed_cv := if (2 <=? length (mouse_speeds c))%nat
                        then sqrt (pop_var (mouse_speeds c)) / (mean (mouse_speeds c) + 1e-6)
                        else 0 in
  (* idle mean (seconds) *)
  let idle_mean := match idle_samples c with [] => 0 | l => mean l end in
  (* zero-shot categories over collected titles *)
  let mix0 := map (fun k => (k, 0)) CATEGORIES in
  let '(mix, top_title) :=
    match titles_in_minute c with
    | [] => (mix0, ""%string)
    | titles =>
        let top := top_of titles in
        (match zero_shot top with Some zs => add_scores zs mix0 | None => mix0 end, top)
    end in
  let social_pct := mix_get mix "social" in
  let total_cat := fold_right Rplus 0 (map snd mix) + 1e-6 in
  let categories_share := map (fun '(k, v) => (k, v / total_cat)) mix in
  let mf := mkMinute ts_now (c_focus_switches c) app_entropy 0 0 ikl_var backspace_ratio
              mouse_speed_cv idle_mean social_pct categories_share top_title in
  (* reset per-minute counters *)
  mkCollector (cur_app c) (last_app c) 0 (key_last_ts c) [] 0 0 [] (last_mouse_event_ts c)
    [] (last_any_input_ts c) (app_hist c) [] (minute_start c) (per_minute c ++ [mf]).

(** One iteration of [_poll_loop] after the window lookup returned
    [(proc, title)] at time [now]; [ts_now] is the clock [_finalize_minute]
    reads. *)
Definition poll (now : R) (proc title : option string) (ts_now : R) (c : Collector)
    : Collector :=
  let c1 := track_app proc c in
  (* cache titles for category estimation *)
  let titles := match title with
                | Some t => if String.eqb t "" then titles_in_minute c1
                            else titles_in_minute c1 ++ [substring 0 200 t]
                | None => titles_in_minute c1
                end in
  (* idle sample (seconds since last input) *)
  let c2 := mkCollector (cur_app c1) (last_app c1) (c_focus_switches c1) (key_last_ts c1)
              (ikls c1) (keystrokes c1) (backspaces c1) (mouse_speeds c1)
              (last_mouse_event_ts c1) (idle_samples c1 ++ [now - last_any_input_ts c1])
              (last_any_input_ts c1) (app_hist c1) titles (minute_start c1)
              (per_minute c1) in
  (* end of minute? *)
  if Rle_dec 60 (now - minute_start c2) then
    let c3 := finalize_minute ts_now c2 in
    mkCollector (cur_app c3) (last_app c3) (c_focus_switches c3) (key_last_ts c3)
      (ikls c3) (keystrokes c3) (backspaces c3) (mouse_speeds c3)
      (last_mouse_event_ts c3) (idle_samples c3) (last_any_input_ts c3) (app_hist c3)
      (titles_in_minute c3) now (per_minute c3)
  else c2.

(** The start of [_poll_loop]: [self.minute_start = time.time()]. *)
Definition start_poll (t : R) (c : Collector) : Collector :=
  mkCollector (cur_app c) (last_app c) (c_focus_switches c) (key_last_ts c) (ikls c)
    (keystrokes c) (backspaces c) (mouse_speeds c) (last_mouse_event_ts c)
    (idle_samples c) (last_any_input_ts c) (app_hist c) (titles_in_minute c) t
    (per_minute c).

(** The states a collector goes through: the listener callbacks and the
    poller, each atomic under the lock, in any interleaving. *)
Inductive reachable : Collector -> Prop :=
| reach_init t0 t1 : reachable (new_collector t0 t1)
| reach_start c t : reachable c -> reachable (start_poll t c)
| reach_key c now key : reachable c -> reachable (on_key_press now key c)
| reach_mouse c now : reachable c -> reachable (on_mouse_move now c)
| reach_poll c now proc title ts_now : reachable c -> reachable (poll now proc title ts_now c).

End Finalize.

End Telemetry.

(* ================================================================== *)
(** * The panel's scoring (streamlit_app.py, [render_panel]) *)

Module Panel.

Import Risk Minute Telemetry.
Local Open Scope R_scope.

Section Panel.

Variable score_samples : list vec -> vec -> R.

(** The scoring part of [render_panel()]: nothing when the collector has no
    minute yet; otherwise [engine.update_and_score] on the vector of the
    latest minute, the engine being updated in place. *)
Definition render_score (c : Collector) (e : RiskEngine)
    : option ((R * level * list (string * R)) * RiskEngine) :=
  match last (per_minute c) with
  | None => None
  | Some latest => Some (update_and_score score_samples e (features_to_vector latest))
  end.

(** The panel rendered on successive snapshots of the collector (the
    auto-refresh loop renders every ~5 s): the results shown, in order, and
    the engine afterwards. *)
Fixpoint render_session (e : RiskEngine) (cs : list Collector)
    : list (R * level * list (string * R)) * RiskEngine :=
  match cs with
  | [] => ([], e)
  | c :: rest =>
      match render_score c e with
      | None => render_session e rest
      | Some (r, e') => let '(rs, e'') := render_session e' rest in (r :: rs, e'')
      end
  end.

End Panel.

End Panel.

(* ================================================================== *)
(** * Facts about the telemetry collector and the panel *)

Module TelemetryFacts.

Import Risk Minute Telemetry Panel.
Local Open Scope R_scope.

(** What every minute the collector emits satisfies. *)
Definition minute_ok (mf : MinuteFeatures) : Prop :=
  0 <= backspace_ratio mf <= 1 /\ tab_churn mf = 0 /\ scroll_fano mf = 0 /\
  (0 <= focus_switches mf)%Z /\ 0 <= app_entropy mf /\ 0 <= ikl_var mf /\
  0 <= mouse_speed_cv mf.

Definition coll_inv (c : Collector) : Prop :=
  (0 <= backspaces c <= keystrokes c)%Z /\ (0 <= c_focus_switches c)%Z /\
  List.Forall (fun v => 0 < v) (mouse_speeds c) /\ List.Forall minute_ok (per_minute c).

Lemma sum_nonneg (l : list R) :
  List.Forall (fun v => 0 <= v) l -> 0 <= fold_right Rplus 0 l.
Proof.
  induction l as [|a l IH]; intros H; simpl; [lra|].
  apply Forall_cons in H as [Ha Hl]. specialize (IH Hl). lra.
Qed.

Lemma sum_nonpos {A} (f : A -> R) (l : list A) :
  (forall a, In a l -> f a <= 0) -> fold_right Rplus 0 (map f l) <= 0.
Proof.
  induction l as [|a l IH]; intros H; simpl; [lra|].
  assert (f a <= 0) by (apply H; left; reflexivity).
  assert (fold_right Rplus 0 (map f l) <= 0) by (apply IH; intros b Hb; apply H; right; exact Hb).
  lra.
Qed.

Lemma mean_nonneg (l : list R) : List.Forall (fun v => 0 <= v) l -> 0 <= mean l.
Proof.
  intros H. unfold mean. pose proof (sum_nonneg l H).
  destruct l as [|a l].
  - simpl. unfold Rdiv. rewrite Rinv_0. lra.
  - assert (0 < INR (length (a :: l))) by (apply lt_0_INR; simpl; lia).
    unfold Rdiv. apply Rmult_le_pos; [lra|]. left. apply Rinv_0_lt_compat. lra.
Qed.

Lemma pop_var_nonneg (l : list R) : 0 <= pop_var l.
Proof.
  unfold pop_var. apply mean_nonneg. apply List.Forall_forall.
  intros y Hy. apply in_map_iff in Hy. destruct Hy as [v [<- _]]. apply pow2_ge_0.
Qed.

Lemma entropy_nonneg (h : list string) : 0 <= entropy h.
Proof.
  unfold entropy.
  assert (Hln2 : 0 < ln 2) by (rewrite <- ln_1; apply ln_increasing; lra).
  match goal with |- 0 <= - fold_right Rplus 0 (map ?f _) => set (g := f) end.
  assert (H : fold_right Rplus 0 (map g (nodup string_dec h)) <= 0).
  { apply sum_nonpos. intros a Ha. apply nodup_In in Ha.
    apply (count_occ_In string_dec) in Ha.
    pose proof (count_occ_bound string_dec a h) as Hb.
    unfold g. set (p := INR (count_occ string_dec h a) / INR (length h)).
    assert (Hc : 0 < INR (count_occ string_dec h a)) by (apply lt_0_INR; lia).
    assert (Hcn : INR (count_occ string_dec h a) <= INR (length h)) by (apply le_INR; exact Hb).
    assert (Hp : 0 < p /\ p <= 1).
    { unfold p. split.
      - apply Rdiv_lt_0_compat; lra.
      - apply Rmult_le_reg_r with (r := INR (length h)); [lra|].
        unfold Rdiv. rewrite Rmult_assoc, Rinv_l by lra. lra. }
    assert (Hlp : ln p <= 0).
    { destruct (Req_dec p 1) as [E|E].
      - rewrite E, ln_1. lra.
      - left. rewrite <- ln_1. apply ln_increasing; lra. }
    assert (Hq : ln p / ln 2 <= 0).
    { unfold Rdiv. assert (0 < / ln 2) by (apply Rinv_0_lt_compat; exact Hln2). nra. }
    nra. }
  lra.
Qed.

Lemma backspace_ratio_bounds (b k : Z) :
  (0 <= b <= k)%Z -> 0 <= IZR b / IZR (Z.max k 1) <= 1.
Proof.
  intros Hb. assert (H1 : (1 <= Z.max k 1)%Z) by lia.
  assert (H2 : (b <= Z.max k 1)%Z) by lia.
  apply IZR_le in H1, H2. assert (H0 : 0 <= IZR b) by (apply IZR_le; lia).
  set (m := IZR (Z.max k 1)) in *. split.
  - unfold Rdiv. apply Rmult_le_pos; [lra|]. left. apply Rinv_0_lt_compat. lra.
  - apply Rmult_le_reg_r with (r := m); [lra|].
    unfold Rdiv. rewrite Rmult_assoc, Rinv_l by lra. lra.
Qed.

Lemma inv_init t0 t1 : coll_inv (new_collector t0 t1).
Proof. unfold coll_inv. simpl. repeat split; try lia; constructor. Qed.

Lemma inv_start c t : coll_inv c -> coll_inv (start_poll t c).
Proof. unfold coll_inv. simpl. tauto. Qed.

Lemma inv_key c now key : coll_inv c -> coll_inv (on_key_press now key c).
Proof.
  unfold coll_inv, on_key_press. cbn [backspaces keystrokes c_focus_switches mouse_speeds per_minute].
  intros (Hb & Hf & Hm & Hp). split; [|tauto].
  repeat match goal with |- context [match ?x with _ => _ end] => destruct x end; lia.
Qed.

Lemma inv_mouse c now : coll_inv c -> coll_inv (on_mouse_move now c).
Proof.
  unfold coll_inv, on_mouse_move.
  cbn [backspaces keystrokes c_focus_switches mouse_speeds per_minute].
  intros (Hb & Hf & Hm & Hp). split; [exact Hb|]. split; [exact Hf|]. split; [|exact Hp].
  destruct (last_mouse_event_ts c) as [t|]; [|exact Hm].
  destruct (Rlt_dec 0 (now - t)) as [Hdt|]; [|exact Hm].
  apply Forall_app. split; [exact Hm|]. constructor; [|constructor].
  unfold Rdiv. rewrite Rmult_1_l. apply Rinv_0_lt_compat. exact Hdt.
Qed.

Lemma inv_track c proc : coll_inv c -> coll_inv (track_app proc c).
Proof.
  unfold coll_inv, track_app. intros (Hb & Hf & Hm & Hp).
  destruct (match proc, cur_app c with
            | Some p, Some a => negb (String.eqb p a) | None, None => false | _, _ => true end).
  - cbn [backspaces keystrokes c_focus_switches mouse_speeds per_minute].
    repeat split; try tauto; try lia. destruct (cur_app c); lia.
  - repeat split; tauto.
Qed.

Section WithPipeline.

Variable zero_shot : string -> option (list (string * R)).
Variable top_of : list string -> string.

Lemma inv_finalize ts_now c : coll_inv c -> coll_inv (finalize_minute zero_shot top_of ts_now c).
Proof.
  unfold coll_inv. intros (Hb & Hf & Hm & Hp).
  unfold finalize_minute. cbv zeta.
  destruct (match titles_in_minute c with
            | [] => _ | _ => _ end) as [mix top_title].
  cbn [backspaces keystrokes c_focus_switches mouse_speeds per_minute].
  split; [lia|]. split; [lia|]. split; [constructor|].
  apply Forall_app. split; [exact Hp|]. constructor; [|constructor].
  unfold minute_ok.
  cbn [backspace_ratio tab_churn scroll_fano focus_switches app_entropy ikl_var mouse_speed_cv].
  split; [apply backspace_ratio_bounds; exact Hb|].
  split; [reflexivity|]. split; [reflexivity|]. split; [exact Hf|].
  split; [destruct (app_hist c); [lra|apply entropy_nonneg]|].
  split; [destruct (ikls c); [lra|apply pop_var_nonneg]|].
  match goal with |- context [if ?b then _ else _] => destruct b end; [|lra].
  assert (Hmean : 0 <= mean (mouse_speeds c)).
  { apply mean_nonneg. apply List.Forall_forall. intros v Hv.
    rewrite List.Forall_forall in Hm. specialize (Hm v Hv). lra. }
  unfold Rdiv. apply Rmult_le_pos; [apply sqrt_pos|]. left. apply Rinv_0_lt_compat. lra.
Qed.

Lemma inv_poll c now proc title ts_now :
  coll_inv c -> coll_inv (poll zero_shot top_of now proc title ts_now c).
Proof.
  intros H. apply (inv_track c proc) in H. unfold poll. cbv zeta.
  destruct (Rle_dec 60 _).
  - match goal with |- coll_inv (mkCollector _ _ _ _ _ _ _ _ _ _ _ _ _ _ (per_minute (finalize_minute _ _ _ ?c2))) =>
      assert (H2 : coll_inv c2) by (unfold coll_inv in *; exact H) end.
    apply (inv_finalize ts_now) in H2. unfold coll_inv in *. exact H2.
  - unfold coll_inv in *. exact H.
Qed.

Lemma reachable_inv c : reachable zero_shot top_of c -> coll_inv c.
Proof.
  induction 1.
  - apply inv_init.
  - apply inv_start; assumption.
  - apply inv_key; assumption.
  - apply inv_mouse; assumption.
  - apply inv_poll; assumption.
Qed.

(** Every minute the collector has emitted, whatever the interleaving of
    key presses, mouse moves and polls: a backspace ratio in [0, 1],
    [tab_churn] and [scroll_fano] equal to 0, a non-negative focus-switch
    count, app entropy, inter-key latency variance and mouse-speed
    coefficient of variation. *)
Theorem emitted_minutes_sane (c : Collector) :
  reachable zero_shot top_of c ->
  forall mf, In mf (per_minute c) ->
  0 <= backspace_ratio mf <= 1 /\ tab_churn mf = 0 /\ scroll_fano mf = 0 /\
  (0 <= focus_switches mf)%Z /\ 0 <= app_entropy mf /\ 0 <= ikl_var mf /\
  0 <= mouse_speed_cv mf.
Proof.
  intros Hr mf Hin. destruct (reachable_inv c Hr) as (_ & _ & _ & Hp).
  rewrite List.Forall_forall in Hp. exact (Hp mf Hin).
Qed.

End WithPipeline.

Lemma minute_vec (mf : MinuteFeatures) :
  minute_ok mf -> RiskFacts.collector_vec (features_to_vector mf).
Proof.
  intros (_ & Ht & Hs & _). unfold RiskFacts.collector_vec, features_to_vector.
  cbn [length nth]. rewrite Ht, Hs. repeat split.
Qed.

Lemma run_engine_app (score_samples : list vec -> vec -> R) (e : RiskEngine) xs x :
  run_engine score_samples e (xs ++ [x]) =
  snd (update_and_score score_samples (run_engine score_samples e xs) x).
Proof. revert e. induction xs as [|y xs IH]; intros e; simpl; [reflexivity|]. apply IH. Qed.

Section WithEngine.

Variable score_samples : list vec -> vec -> R.

Lemma render_score_vec (c : Collector) (e e' : RiskEngine) r :
  coll_inv c -> render_score score_samples c e = Some (r, e') ->
  exists x, RiskFacts.collector_vec x /\ update_and_score score_samples e x = (r, e').
Proof.
  intros (_ & _ & _ & Hp). unfold render_score.
  destruct (last (per_minute c)) as [m|] eqn:El; [|discriminate].
  intros Hs. injection Hs as Hs. exists (features_to_vector m). split; [|exact Hs].
  apply minute_vec. apply last_Some in El. destruct El as [l' El].
  rewrite El in Hp. apply Forall_app in Hp as [_ Hm]. apply Forall_cons in Hm as [Hm _].
  exact Hm.
Qed.

Lemma session_bound (cs : list Collector) :
  forall xs, List.Forall RiskFacts.collector_vec xs -> List.Forall coll_inv cs ->
  forall i risk lvl d,
  nth_error (fst (render_session score_samples (run_engine score_samples new_engine xs) cs)) i
    = Some (risk, lvl, d) ->
  risk <= 0.8 /\ ((length xs + i < 30)%nat -> risk <= 0.4 /\ lvl = Low).
Proof.
  induction cs as [|c cs IH]; intros xs Hxs Hcs i risk lvl d H.
  - simpl in H. destruct i; discriminate.
  - apply Forall_cons in Hcs as [Hc Hcs]. simpl in H.
    destruct (render_score score_samples c (run_engine score_samples new_engine xs))
      as [[r e']|] eqn:Er.
    + destruct (render_score_vec c _ e' r Hc Er) as [x [Hx Hu]].
      assert (He' : e' = run_engine score_samples new_engine (xs ++ [x])).
      { rewrite run_engine_app, Hu. reflexivity. }
      destruct (render_session score_samples e' cs) as [rs e''] eqn:Es. simpl in H.
      destruct i as [|j].
      * simpl in H. injection H as Hr. subst r.
        pose proof (RiskFacts.collector_vectors_bound score_samples xs x Hxs Hx) as Hb.
        cbv zeta in Hb. rewrite Hu in Hb. cbn in Hb.
        rewrite Nat.add_0_r. exact Hb.
      * simpl in H. rewrite He' in Es.
        assert (H' : nth_error (fst (render_session score_samples
                       (run_engine score_samples new_engine (xs ++ [x])) cs)) j
                     = Some (risk, lvl, d)) by (rewrite Es; exact H).
        assert (Hxs' : List.Forall RiskFacts.collector_vec (xs ++ [x]))
          by (apply Forall_app; split; [exact Hxs|constructor; [exact Hx|constructor]]).
        destruct (IH (xs ++ [x]) Hxs' Hcs j risk lvl d H') as [Hb1 Hb2].
        split; [exact Hb1|]. intros Hl. apply Hb2. rewrite length_app. simpl. lia.
    + exact (IH xs Hxs Hcs i risk lvl d H).
Qed.

End WithEngine.

(** The panel on a fresh engine, rendered on any snapshots of the collector:
    every risk it shows is at most 0.8, and the first 30 scored renders show
    a risk of at most 0.4 and the level low, since the minutes' [tab_churn]
    and [scroll_fano] are always 0 and the forest is not fitted before the
    31st call. *)
Theorem panel_risk_bound (score_samples : list vec -> vec -> R)
    (zero_shot : string -> option (list (string * R))) (top_of : list string -> string)
    (cs : list Collector) :
  List.Forall (reachable zero_shot top_of) cs ->
  forall i risk lvl d,
  nth_error (fst (render_session score_samples new_engine cs)) i = Some (risk, lvl, d) ->
  risk <= 0.8 /\ ((i < 30)%nat -> risk <= 0.4 /\ lvl = Low).
Proof.
  intros Hcs i risk lvl d H.
  change new_engine with (run_engine score_samples new_engine []) in H.
  assert (Hinv : List.Forall coll_inv cs).
  { apply List.Forall_forall. intros c Hc. rewrite List.Forall_forall in Hcs.
    apply (reachable_inv zero_shot top_of). exact (Hcs c Hc). }
  exact (session_bound score_samples cs [] (List.Forall_nil _) Hinv i risk lvl d H).
Qed.

(** The counting the poll loop's app tracking is meant to do: a switch each
    time the app differs from the one before (the first app seen is not a
    switch), and the history of the apps switched to. *)
Fixpoint app_changes (prev : option string) (ps : list string) : Z :=
  match ps with
  | [] => 0%Z
  | p :: rest =>
      ((match prev with Some a => if String.eqb p a then 0 else 1 | None => 0 end)
       + app_changes (Some p) rest)%Z
  end.

Fixpoint new_apps (prev : option string) (ps : list string) : list string :=
  match ps with
  | [] => []
  | p :: rest =>
      (match prev with Some a => if String.eqb p a then [] else [p] | None => [p] end)
      ++ new_apps (Some p) rest
  end.

Lemma track_app_some (c : Collector) (p : string) :
  p <> ""%string ->
  let c' := track_app (Some p) c in
  c_focus_switches c' =
    (c_focus_switches c +
     match cur_app c with Some a => if String.eqb p a then 0 else 1 | None => 0 end)%Z /\
  app_hist c' =
    app_hist c ++ match cur_app c with Some a => if String.eqb p a then [] else [p]
                                       | None => [p] end /\
  cur_app c' = Some p.
Proof.
  intros Hp. apply String.eqb_neq in Hp. unfold track_app.
  destruct (cur_app c) as [a|] eqn:Ec.
  - destruct (String.eqb p a) eqn:Epa; cbn [negb].
    + apply String.eqb_eq in Epa. subst a. rewrite app_nil_r. repeat split; [lia|exact Ec].
    + rewrite Hp. cbn. repeat split.
  - rewrite Hp. cbn. repeat split; lia.
Qed.

(** Polled with the (non-empty) process names [ps], the collector counts one
    focus switch for each name that differs from the one before, and
    [app_hist] records only those changes: a poll that sees the same app
    adds nothing to it. *)
Theorem track_app_counts_changes (c : Collector) (ps : list string) :
  List.Forall (fun p => p <> ""%string) ps ->
  let c' := fold_left (fun c p => track_app (Some p) c) ps c in
  c_focus_switches c' = (c_focus_switches c + app_changes (cur_app c) ps)%Z /\
  app_hist c' = app_hist c ++ new_apps (cur_app c) ps.
Proof.
  intros Hps. revert c. induction Hps as [|p ps Hp Hps IH]; intros c; cbn [fold_left].
  - cbn [app_changes new_apps]. rewrite app_nil_r. split; [lia|reflexivity].
  - destruct (track_app_some c p Hp) as (Hf & Hh & Hc).
    destruct (IH (track_app (Some p) c)) as [H1 H2].
    cbn [app_changes new_apps]. rewrite Hc in H1, H2. split.
    + rewrite H1, Hf. lia.
    + rewrite H2, Hh, app_assoc. reflexivity.
Qed.

Lemma track_app_none (c : Collector) :
  cur_app c <> None ->
  cur_app (track_app None c) = Some "unknown"%string /\
  c_focus_switches (track_app None c) = (c_focus_switches c + 1)%Z /\
  app_hist (track_app None c) = app_hist c ++ ["unknown"%string].
Proof.
  intros Hc. unfold track_app. destruct (cur_app c) as [a|]; [|contradiction].
  cbn. repeat split.
Qed.

(** Once an app has been seen, every poll whose window lookup fails
    ([get_active_window_win] returning [(None, None)]) counts as a focus
    switch and appends ["unknown"] to [app_hist]: [None != "unknown"] holds
    on every such poll. *)
Theorem track_app_failures (c : Collector) (n : nat) :
  cur_app c <> None ->
  let c' := Nat.iter n (track_app None) c in
  c_focus_switches c' = (c_focus_switches c + Z.of_nat n)%Z /\
  app_hist c' = app_hist c ++ repeat "unknown"%string n.
Proof.
  intros Hc.
  assert (H : cur_app (Nat.iter n (track_app None) c) <> None /\
              c_focus_switches (Nat.iter n (track_app None) c) = (c_focus_switches c + Z.of_nat n)%Z /\
              app_hist (Nat.iter n (track_app None) c) = app_hist c ++ repeat "unknown"%string n).
  { induction n as [|n (IH1 & IH2 & IH3)].
    - cbn. rewrite app_nil_r. repeat split; [exact Hc|lia].
    - change (Nat.iter (S n) (track_app None) c)
        with (track_app None (Nat.iter n (track_app None) c)).
      destruct (track_app_none (Nat.iter n (track_app None) c) IH1) as (Hc' & Hf & Hh).
      split; [rewrite Hc'; discriminate|]. split.
      + rewrite Hf, IH2. lia.
      + rewrite Hh, IH3, <- app_assoc. f_equal. symmetry. apply repeat_cons. }
  cbv zeta. tauto.
Qed.

(** A collector that has polled once, a minute after it started. *)
Definition sample_zero_shot (_ : string) : option (list (string * R)) :=
  Some [("coding"%string, 0.5); ("work"%string, 0.25)].
Definition sample_top (l : list string) : string := hd ""%string l.
Definition polled_once : Collector :=
  poll sample_zero_shot sample_top 61 (Some "code"%string) (Some "main.py"%string) 61
    (new_collector 0 0).

Lemma polled_once_reachable : reachable sample_zero_shot sample_top polled_once.
Proof. apply reach_poll, reach_init. Qed.

Lemma polled_once_minute : exists mf, per_minute polled_once = [mf].
Proof.
  unfold polled_once, poll. cbv zeta.
  destruct (Rle_dec _ _) as [H|H].
  - eexists. reflexivity.
  - exfalso. apply H. cbn. lra.
Qed.

Lemma emitted_minutes_sane_witness :
  reachable sample_zero_shot sample_top polled_once /\
  exists mf, In mf (per_minute polled_once) /\
  (0 <= backspace_ratio mf <= 1 /\ tab_churn mf = 0 /\ scroll_fano mf = 0 /\
   (0 <= focus_switches mf)%Z /\ 0 <= app_entropy mf /\ 0 <= ikl_var mf /\
   0 <= mouse_speed_cv mf).
Proof.
  split; [exact polled_once_reachable|].
  destruct polled_once_minute as [mf Hm]. exists mf.
  assert (Hin : In mf (per_minute polled_once)) by (rewrite Hm; left; reflexivity).
  split; [exact Hin|].
  exact (emitted_minutes_sane sample_zero_shot sample_top polled_once polled_once_reachable mf Hin).
Defined.

Lemma panel_risk_bound_witness :
  List.Forall (reachable sample_zero_shot sample_top) [polled_once; polled_once] /\
  match nth_error (fst (render_session (fun _ _ => 0) new_engine [polled_once; polled_once])) 1 with
  | Some (risk, lvl, _) => risk <= 0.8 /\ ((1 < 30)%nat -> risk <= 0.4 /\ lvl = Low)
  | None => False
  end.
Proof.
  assert (Hr : List.Forall (reachable sample_zero_shot sample_top) [polled_once; polled_once])
    by (repeat constructor; exact polled_once_reachable).
  split; [exact Hr|].
  destruct polled_once_minute as [mf Hm].
  destruct (nth_error (fst (render_session (fun _ _ => 0) new_engine [polled_once; polled_once])) 1)
    as [[[risk lvl] d]|] eqn:E.
  - exact (panel_risk_bound (fun _ _ => 0) sample_zero_shot sample_top _ Hr 1 risk lvl d E).
  - revert E. cbn [render_session]. unfold render_score. rewrite Hm. cbn [last].
    destruct (update_and_score _ new_engine _) as [r1 e1].
    destruct (update_and_score _ e1 _) as [r2 e2]. cbn. discriminate.
Defined.

Lemma track_app_counts_changes_witness :
  List.Forall (fun p => p <> ""%string) ["code"; "code"; "chrome"; "code"]%string /\
  (let c' := fold_left (fun c p => track_app (Some p) c) ["code"; "code"; "chrome"; "code"]%string
               (new_collector 0 0) in
   c_focus_switches c' =
     (c_focus_switches (new_collector 0 0) +
      app_changes (cur_app (new_collector 0 0)) ["code"; "code"; "chrome"; "code"]%string)%Z /\
   app_hist c' = app_hist (new_collector 0 0) ++
                 new_apps (cur_app (new_collector 0 0)) ["code"; "code"; "chrome"; "code"]%string).
Proof.
  assert (H : List.Forall (fun p => p <> ""%string) ["code"; "code"; "chrome"; "code"]%string)
    by (repeat constructor; discriminate).
  split; [exact H|]. exact (track_app_counts_changes (new_collector 0 0) _ H).
Defined.

Lemma track_app_failures_witness :
  cur_app (track_app (Some "code"%string) (new_collector 0 0)) <> None /\
  (let c' := Nat.iter 3 (track_app None) (track_app (Some "code"%string) (new_collector 0 0)) in
   c_focus_switches c' =
     (c_focus_switches (track_app (Some "code"%string) (new_collector 0 0)) + Z.of_nat 3)%Z /\
   app_hist c' = app_hist (track_app (Some "code"%string) (new_collector 0 0)) ++
                 repeat "unknown"%string 3).
Proof.
  assert (H : cur_app (track_app (Some "code"%string) (new_collector 0 0)) <> None)
    by (cbn; discriminate).
  split; [exact H|]. exact (track_app_failures _ 3 H).
Defined.

End TelemetryFacts.
